(** * Incremental statistics and cache updates (src/main.js)

    A shallow embedding of the Appwrite cloud function that keeps three
    aggregate documents up to date: the teacher statistics, the links
    uploader cache and the per-subject uploader cache.

    Conventions of the embedding.
    - JavaScript strings are [string], holding the UTF-8 encoding of the
      text (well-formed text, without lone surrogates).  [x.includes(y)] and [x.split('.')] are written out on it, and
      the default order of [Array.prototype.sort], which compares UTF-16
      code units, is written out as the comparison of the encodings that
      agrees with it ([codeUnitCompare]).
    - Counters are JavaScript numbers holding integers; they are [Z] here
      (exact below 2^53, which a counter moved by one per event never
      reaches).
    - The [data] field of a stored document is a JSON text.  A slot holds
      [None] for a falsy [data] (null, undefined or the empty string) and
      [Some v] for the text that [JSON.stringify v] produces, so that
      [JSON.parse] of it gives [v] back.
    - The three aggregate documents are three distinct slots of the store
      (the configured document identifiers are taken to be distinct).  A
      slot is missing, or holds a document, or holds a document that the
      server lets the function read but refuses to update.
    - [async] functions are computations in a state-and-exception monad
      over the store; a rejected promise is a thrown exception.  The
      calls made on the database client are recorded, in order, per task.
    - [log] and [error] only write to the function's console and are not
      modelled, except for the failures the handler reports. *)

From Stdlib Require Import ZArith String Ascii List Lia.
From stdpp Require Import gmap strings list sorting.

Local Open Scope string_scope.

(** ** JavaScript primitives *)

(** [s.includes(needle)] on strings. *)
Fixpoint includes (s needle : string) : bool :=
  String.prefix needle s ||
  match s with
  | EmptyString => false
  | String _ rest => includes rest needle
  end.

(** [s.split(sep)] for a one-character separator. *)
Fixpoint split (sep : ascii) (s : string) : list string :=
  match s with
  | EmptyString => [EmptyString]
  | String c rest =>
      if Ascii.eqb c sep then EmptyString :: split sep rest
      else match split sep rest with
           | seg :: segs => String c seg :: segs
           | [] => [String c EmptyString]
           end
  end.

(** A payload field is absent or a string; the empty string is falsy. *)
Definition truthy (v : option string) : option string :=
  match v with
  | Some s => if String.eqb s "" then None else Some s
  | None => None
  end.

(** [a || b] on payload fields. *)
Definition orElse (a b : option string) : option string :=
  match truthy a with
  | Some s => Some s
  | None => b
  end.

(** [arr.includes(x)] on an array of strings. *)
Definition arrayIncludes (arr : list string) (x : string) : bool :=
  existsb (String.eqb x) arr.

(** [Array.prototype.sort(comparefn)]: the sort is stable (ECMAScript 2019,
    Node 11 and later).  [x], which stood before every element of [l],
    stays before [y] unless [comparefn(x, y) > 0]. *)
Fixpoint sortInsert {A} (comparefn : A → A → Z) (x : A) (l : list A) : list A :=
  match l with
  | [] => [x]
  | y :: l' =>
      if (comparefn x y <=? 0)%Z then x :: y :: l'
      else y :: sortInsert comparefn x l'
  end.

Fixpoint sort {A} (comparefn : A → A → Z) (l : list A) : list A :=
  match l with
  | [] => []
  | x :: l' => sortInsert comparefn x (sort comparefn l')
  end.

(** The rank of a byte of a UTF-8 encoding in the order of UTF-16 code
    units.  Encodings compare byte by byte as the code points do; code units
    differ from code points in one respect only: a character beyond U+FFFF
    (first byte F0 and above) is a surrogate pair, which starts with a unit
    in D800-DBFF and so comes after U+D7FF (first byte up to ED) and before
    U+E000-U+FFFF (first byte EE or EF). *)
Definition codeUnitRank (c : ascii) : N :=
  let b := N_of_ascii c in
  if (b <? 238)%N then b            (* 00-ED *)
  else if (b <? 240)%N then (b + 18)%N   (* EE, EF: after every first byte *)
  else (b - 2)%N.                   (* F0-FF: between ED and EE *)

(** Strings compared by UTF-16 code units, on their UTF-8 encodings. *)
Fixpoint codeUnitCompare (a b : string) : comparison :=
  match a, b with
  | EmptyString, EmptyString => Eq
  | EmptyString, String _ _ => Lt
  | String _ _, EmptyString => Gt
  | String x a', String y b' =>
      match N.compare (codeUnitRank x) (codeUnitRank y) with
      | Eq => codeUnitCompare a' b'
      | Lt => Lt
      | Gt => Gt
      end
  end.

(** The default comparator of [sort()] on strings: code unit order. *)
Definition defaultCompare (a b : string) : Z :=
  match codeUnitCompare a b with
  | Lt => (-1)%Z
  | Eq => 0%Z
  | Gt => 1%Z
  end.

(** Names every object inherits from [Object.prototype]: reading one of them
    on a parsed object that has no own property of that name gives a
    function (or the prototype itself), which is truthy and is not an
    array. *)
Definition objectPrototypeKeys : list string :=
  [ "constructor"; "__defineGetter__"; "__defineSetter__"; "hasOwnProperty";
    "__lookupGetter__"; "__lookupSetter__"; "isPrototypeOf";
    "propertyIsEnumerable"; "toString"; "valueOf"; "__proto__";
    "toLocaleString" ].

Inductive property :=
| Own (arr : list string)
| Inherited
| Undefined.

(** [obj[key]] on an object whose own values are arrays of strings. *)
Definition getProp (obj : gmap string (list string)) (key : string) : property :=
  match obj !! key with
  | Some arr => Own arr
  | None => if bool_decide (key ∈ objectPrototypeKeys) then Inherited else Undefined
  end.

(** ** Data model *)

Record StatsEntry := {
  name : string;
  notes : Z;
  forms : Z;
  youtube : Z;
  total : Z
}.

(** [req.body]: the payload fields the tasks read. *)
Record EventData := {
  userName : option string;
  createdBy : option string;
  abbreviation : option string
}.

(** The part of [process.env] that the logic depends on. *)
Record Env := {
  APPWRITE_NOTE_COLLECTION_ID : string;
  APPWRITE_FORM_COLLECTION_ID : string;
  APPWRITE_YOUTUBE_COLLECTION_ID : string
}.

(** ** The document store *)

(** A slot: no document, a document, or a document that can be read but
    whose update the server refuses (the key lacks the permission, the
    request fails). *)
Inductive document (T : Type) :=
| NotFound
| Document (data : option T)
| ReadOnly (data : option T).
Arguments NotFound {T}.
Arguments Document {T} data.
Arguments ReadOnly {T} data.

Record Store := {
  statsDocument : document (list StatsEntry);
  linksCacheDocument : document (gmap string (list string));
  uploadersCacheDocument : document (gmap string (list string))
}.

Inductive docId :=
| STATS_DOCUMENT_ID
| LINKS_UPLOADERS_CACHE_DOCUMENT_ID
| UPLOADERS_CACHE_DOCUMENT_ID.

(** A (database, collection, document) triple naming one slot. *)
Record docRef (T : Type) := {
  refId : docId;
  readSlot : Store → document T;
  writeSlot : document T → Store → Store
}.
Arguments refId {T}.
Arguments readSlot {T}.
Arguments writeSlot {T}.

Definition statsRef : docRef (list StatsEntry) := {|
  refId := STATS_DOCUMENT_ID;
  readSlot := statsDocument;
  writeSlot d s := {| statsDocument := d;
                      linksCacheDocument := linksCacheDocument s;
                      uploadersCacheDocument := uploadersCacheDocument s |}
|}.

Definition linksRef : docRef (gmap string (list string)) := {|
  refId := LINKS_UPLOADERS_CACHE_DOCUMENT_ID;
  readSlot := linksCacheDocument;
  writeSlot d s := {| statsDocument := statsDocument s;
                      linksCacheDocument := d;
                      uploadersCacheDocument := uploadersCacheDocument s |}
|}.

Definition uploadersRef : docRef (gmap string (list string)) := {|
  refId := UPLOADERS_CACHE_DOCUMENT_ID;
  readSlot := uploadersCacheDocument;
  writeSlot d s := {| statsDocument := statsDocument s;
                      linksCacheDocument := linksCacheDocument s;
                      uploadersCacheDocument := d |}
|}.

(** ** Promises as a state-and-exception monad *)

Inductive exn :=
| TypeError (msg : string)
| StoreError (doc : docId)
| UpdateRefused (doc : docId)
| HostError (msg : string).

Inductive dbCall :=
| GetDocument (doc : docId)
| UpdateDocument (doc : docId).

Inductive completion (A : Type) :=
| Normal (a : A)
| Throw (e : exn).
Arguments Normal {A} a.
Arguments Throw {A} e.

Record world := {
  store : Store;
  calls : list dbCall
}.

Definition Async (A : Type) : Type := world → completion A * world.

Definition ret {A} (a : A) : Async A := fun w => (Normal a, w).

Definition throw {A} (e : exn) : Async A := fun w => (Throw e, w).

Definition bind {A B} (m : Async A) (k : A → Async B) : Async B :=
  fun w =>
    match m w with
    | (Normal a, w') => k a w'
    | (Throw e, w') => (Throw e, w')
    end.

Notation "'await' x ← m ; k" := (bind m (fun x => k))
  (at level 100, x name, m at level 99, right associativity,
   format "'[v' 'await'  x  ←  m ; '/' k ']'").

Definition logCall (c : dbCall) (w : world) : world :=
  {| store := store w; calls := calls w ++ [c] |}.

(** [db.getDocument(databaseId, collectionId, documentId)]: the stored
    [data], or a rejection when the document does not exist. *)
Definition getDocument {T} (r : docRef T) : Async (option T) :=
  fun w =>
    let w' := logCall (GetDocument (refId r)) w in
    match readSlot r (store w) with
    | NotFound => (Throw (StoreError (refId r)), w')
    | Document data | ReadOnly data => (Normal data, w')
    end.

(** [db.updateDocument(databaseId, collectionId, documentId,
    { data: JSON.stringify(v) })]: the document is overwritten, or the call
    is rejected and the document stays as it is. *)
Definition updateDocument {T} (r : docRef T) (v : T) : Async unit :=
  fun w =>
    let w' := logCall (UpdateDocument (refId r)) w in
    match readSlot r (store w) with
    | NotFound => (Throw (StoreError (refId r)), w')
    | ReadOnly _ => (Throw (UpdateRefused (refId r)), w')
    | Document _ =>
        (Normal tt, {| store := writeSlot r (Document (Some v)) (store w');
                       calls := calls w' |})
    end.

(** What [JSON.parse] returns in [getAndParseJSON]: the value the text
    holds, or the empty object [{}] parsed from the default text. *)
Inductive parsed (T : Type) :=
| EmptyObject
| Parsed (v : T).
Arguments EmptyObject {T}.
Arguments Parsed {T} v.

(** main.js, lines 4-7. *)
Definition getAndParseJSON {T} (r : docRef T) : Async (parsed T) :=
  await data ← getDocument r;
  ret (match data with
       | Some v => Parsed v      (* JSON.parse(document.data) *)
       | None => EmptyObject     (* JSON.parse('{}') *)
       end).

(** A parsed cache document read as an object: [{}] has no own property. *)
Definition asObject (p : parsed (gmap string (list string))) : gmap string (list string) :=
  match p with
  | EmptyObject => ∅
  | Parsed obj => obj
  end.

(** ** Task 1: teacher statistics (main.js, lines 10-55) *)

(** Line 34: [event.split('.')[3]]. *)
Definition collectionId (event : string) : option string :=
  split "." event !! 3%nat.

(** Line 35. *)
Definition increment (event : string) : Z :=
  if includes event ".create" then 1%Z else (-1)%Z.

(** Line 30. *)
Definition freshEntry (userName : string) : StatsEntry :=
  {| name := userName; notes := 0; forms := 0; youtube := 0; total := 0 |}.

(** Lines 27-32: [find] gives a reference to the first entry of that name;
    when there is none a fresh entry is pushed and referenced.  The
    reference is the index of the entry in the array. *)
Definition locate (userName : string) (statsData : list StatsEntry)
  : list StatsEntry * nat :=
  match list_find (λ u, name u = userName) statsData with
  | Some (i, _) => (statsData, i)
  | None => ((statsData ++ [freshEntry userName])%list, length statsData)
  end.

(** Lines 37-40. *)
Definition addIncrement (env : Env) (event : string) (userStats : StatsEntry)
  : StatsEntry :=
  let collectionId := collectionId event in
  let increment := increment event in
  {| name := name userStats;
     notes :=
       if bool_decide (collectionId = Some (APPWRITE_NOTE_COLLECTION_ID env))
       then (notes userStats + increment)%Z else notes userStats;
     forms :=
       if bool_decide (collectionId = Some (APPWRITE_FORM_COLLECTION_ID env))
       then (forms userStats + increment)%Z else forms userStats;
     youtube :=
       if bool_decide (collectionId = Some (APPWRITE_YOUTUBE_COLLECTION_ID env))
       then (youtube userStats + increment)%Z else youtube userStats;
     total := (total userStats + increment)%Z |}.

(** Lines 43-46. *)
Definition clampCounts (userStats : StatsEntry) : StatsEntry :=
  {| name := name userStats;
     notes := Z.max 0 (notes userStats);
     forms := Z.max 0 (forms userStats);
     youtube := Z.max 0 (youtube userStats);
     total := Z.max 0 (total userStats) |}.

(** Line 48: the comparator [(a, b) => b.total - a.total]. *)
Definition byTotalDesc (a b : StatsEntry) : Z := (total b - total a)%Z.

(** Lines 27-46: the array as it stands just before it is sorted. *)
Definition mutateStats (env : Env) (event userName : string)
    (statsData : list StatsEntry) : list StatsEntry :=
  let '(statsData, i) := locate userName statsData in
  alter (λ userStats, clampCounts (addIncrement env event userStats)) i statsData.

(** Lines 27-48: the array that is written back. *)
Definition applyEvent (env : Env) (event userName : string)
    (statsData : list StatsEntry) : list StatsEntry :=
  sort byTotalDesc (mutateStats env event userName statsData).

Definition updateTeacherStats (env : Env) (event : string) (eventData : EventData)
  : Async unit :=
  if negb (includes event ".create") && negb (includes event ".delete")
  then ret tt
  else
    match truthy (orElse (userName eventData) (createdBy eventData)) with
    | None => ret tt
    | Some userName =>
        await statsData ← getAndParseJSON statsRef;
        match statsData with
        | EmptyObject =>
            (* [{}] has no [find] method *)
            throw (TypeError "statsData.find is not a function")
        | Parsed statsData =>
            updateDocument statsRef (applyEvent env event userName statsData)
        end
    end.

(** ** Task 2: links uploader cache (main.js, lines 59-89) *)

Definition updateLinksCache (event : string) (eventData : EventData) : Async unit :=
  if negb (includes event ".create") then ret tt
  else
    match truthy (createdBy eventData) with
    | None => ret tt
    | Some uploaderName =>
        await cacheData ← getAndParseJSON linksRef;
        let uploaders := default [] (asObject cacheData !! "uploaders") in
        if negb (arrayIncludes uploaders uploaderName) then
          let uploaders := sort defaultCompare (uploaders ++ [uploaderName])%list in
          updateDocument linksRef {[ "uploaders" := uploaders ]}
        else ret tt
    end.

(** ** Task 3: uploader cache by subject (main.js, lines 93-142) *)

(** Lines 122-126 and 127-131: push and sort under [key] unless the name is
    there already; the flag tells whether the array changed. *)
Definition addUnder (key userName : string) (cacheData : gmap string (list string))
  : gmap string (list string) * bool :=
  let arr := default [] (cacheData !! key) in
  if negb (arrayIncludes arr userName)
  then (<[key := sort defaultCompare (arr ++ [userName])%list]> cacheData, true)
  else (cacheData, false).

(** Lines 119-131 on the parsed object.  Line 120 reads
    [cacheData[abbreviation]]: when that is a value inherited from
    [Object.prototype] it has no [includes] method and line 127 throws, after
    which nothing is written ([None]).  Otherwise the result is the object
    and the [hasChanged] flag. *)
Definition addUploader (userName abbreviation : string)
    (cacheData : gmap string (list string))
  : option (gmap string (list string) * bool) :=
  (* line 119 *)
  let cacheData := <["all" := default [] (cacheData !! "all")]> cacheData in
  (* line 120 *)
  match getProp cacheData abbreviation with
  | Inherited => None
  | prop =>
      let arr := match prop with Own arr => arr | _ => [] end in
      let cacheData := <[abbreviation := arr]> cacheData in
      (* lines 122-126 *)
      let '(cacheData, changedAll) := addUnder "all" userName cacheData in
      (* lines 127-131 *)
      let '(cacheData, changedKey) := addUnder abbreviation userName cacheData in
      Some (cacheData, changedAll || changedKey)
  end.

Definition updateUploaderCache (env : Env) (event : string) (eventData : EventData)
  : Async unit :=
  if negb (includes event ("collections." ++ APPWRITE_NOTE_COLLECTION_ID env))
  then ret tt
  else if negb (includes event ".create") then ret tt
  else
    match truthy (userName eventData), truthy (abbreviation eventData) with
    | Some userName, Some abbreviation =>
        await cacheData ← getAndParseJSON uploadersRef;
        match addUploader userName abbreviation (asObject cacheData) with
        | None =>
            throw (TypeError "cacheData[abbreviation].includes is not a function")
        | Some (cacheData, hasChanged) =>
            if hasChanged then updateDocument uploadersRef cacheData
            else ret tt
        end
    | _, _ => ret tt
    end.

(** ** The exported handler (main.js, lines 146-178) *)

Inductive settled :=
| fulfilled
| rejected (reason : exn).

(** One task run until its promise settles: how it settled, the store it
    leaves, and the calls it made on the client. *)
Definition settle (task : Async unit) (s : Store) : settled * Store * list dbCall :=
  match task {| store := s; calls := [] |} with
  | (Normal _, w) => (fulfilled, store w, calls w)
  | (Throw e, w) => (rejected e, store w, calls w)
  end.

(** [Promise.allSettled]: every task runs until it settles.  The tasks work
    on different documents, so the store they leave is the one obtained by
    running them one after the other. *)
Fixpoint allSettled (tasks : list (Async unit)) (s : Store) : list settled * Store :=
  match tasks with
  | [] => ([], s)
  | task :: tasks' =>
      let '(result, s', _) := settle task s in
      let '(results, s'') := allSettled tasks' s' in
      (result :: results, s'')
  end.

(** Lines 168-172: the failures passed to [error], as (task number, reason). *)
Fixpoint reportFailures (i : nat) (results : list settled) : list (nat * exn) :=
  match results with
  | [] => []
  | fulfilled :: results' => reportFailures (S i) results'
  | rejected reason :: results' => (S i, reason) :: reportFailures (S i) results'
  end.

Record Request := {
  x_appwrite_event : option string;   (* req.headers['x-appwrite-event'] *)
  body : EventData
}.

(** The argument of [res.json] and the status code (200 when omitted). *)
Record Response := {
  success : bool;
  message : option string;
  errorMessage : option string;
  statusCode : Z
}.

Inductive outcome :=
| Responded (res : Response)
| Uncaught (e : exn).

Definition exnMessage (e : exn) : string :=
  match e with
  | TypeError msg => msg
  | StoreError _ => "Document with the requested ID could not be found."
  | UpdateRefused _ => "The current user is not authorized to perform the requested action."
  | HostError msg => msg
  end.

(** [try { body } catch (e) { handle(e) }]. *)
Definition tryCatch {A} (body : completion A) (handle : exn → A) : A :=
  match body with
  | Normal a => a
  | Throw e => handle e
  end.

(** Line 174. *)
Definition processed : Response :=
  {| success := true;
     message := Some "Incremental updates processed.";
     errorMessage := None;
     statusCode := 200 |}.

(** Line 177. *)
Definition critical (e : exn) : Response :=
  {| success := false;
     message := None;
     errorMessage := Some (exnMessage e);
     statusCode := 500 |}.

(** Lines 157-178, for any list of tasks: nothing inside [try] throws,
    since [Promise.allSettled] never rejects and calling an [async]
    function never throws. *)
Definition dispatch (tasks : list (Async unit)) (s : Store)
  : outcome * list (nat * exn) * Store :=
  let '(results, s') := allSettled tasks s in
  (Responded (tryCatch (Normal processed) critical), reportFailures 0 results, s').

(** Each task starts with [event.includes(...)], which throws inside the
    task when the header is missing. *)
Definition withEvent (event : option string) (task : string → Async unit) : Async unit :=
  match event with
  | Some event => task event
  | None => throw (TypeError "Cannot read properties of undefined (reading 'includes')")
  end.

(** [newClient] is what lines 147-151 do: the client and [Databases] objects
    are built by the node-appwrite library, which either returns or throws.
    The result is the response (or the exception that leaves the handler),
    the failures reported through [error], and the store. *)
Definition handler (newClient : completion unit) (env : Env) (req : Request) (s : Store)
  : outcome * list (nat * exn) * Store :=
  match newClient with
  | Throw e => (Uncaught e, [], s)
  | Normal db =>
      let event := x_appwrite_event req in
      let eventData := body req in
      dispatch
        [ withEvent event (fun event => updateTeacherStats env event eventData);
          withEvent event (fun event => updateLinksCache event eventData);
          withEvent event (fun event => updateUploaderCache env event eventData) ]
        s
  end.

(** ** Vocabulary of the properties *)

(** The task treats an event as a creation when its name contains
    [.create] (lines 15, 35, 64, 104), and as a deletion when it does not
    but contains [.delete] (lines 15 and 35). *)
Definition isCreate (event : string) : bool := includes event ".create".

Definition isDelete (event : string) : bool :=
  negb (includes event ".create") && includes event ".delete".

(** Line 20: the name an event is attributed to. *)
Definition attribution (eventData : EventData) : option string :=
  truthy (orElse (userName eventData) (createdBy eventData)).

(** An event as delivered: its name and its payload. *)
Definition delivery : Type := string * EventData.

(** The store a task leaves behind. *)
Definition storeAfter (task : Async unit) (s : Store) : Store :=
  (settle task s).1.2.

(** The teacher statistics task over a sequence of deliveries. *)
Definition statsEvents (env : Env) (evs : list delivery) (s : Store) : Store :=
  foldl (λ s ev, storeAfter (updateTeacherStats env ev.1 ev.2) s) s evs.

Definition creates (evs : list delivery) : Z :=
  Z.of_nat (length (List.filter (λ ev : delivery, isCreate ev.1) evs)).

Definition deletes (evs : list delivery) : Z :=
  Z.of_nat (length (List.filter (λ ev : delivery, isDelete ev.1) evs)).

(** Creations minus deletions. *)
Definition net (evs : list delivery) : Z := (creates evs - deletes evs)%Z.

(** The deliveries whose collection identifier (line 34) is [coll]. *)
Definition onCollection (coll : string) (evs : list delivery) : list delivery :=
  List.filter (λ ev : delivery, bool_decide (collectionId ev.1 = Some coll)) evs.

Definition tracked (env : Env) (event : string) : Prop :=
  collectionId event = Some (APPWRITE_NOTE_COLLECTION_ID env)
  ∨ collectionId event = Some (APPWRITE_FORM_COLLECTION_ID env)
  ∨ collectionId event = Some (APPWRITE_YOUTUBE_COLLECTION_ID env).

Definition nonNegative (u : StatsEntry) : Prop :=
  (0 ≤ notes u)%Z ∧ (0 ≤ forms u)%Z ∧ (0 ≤ youtube u)%Z ∧ (0 ≤ total u)%Z.

(** Every counter of every entry of the stored statistics is at least 0. *)
Definition statsNonNegative (s : Store) : Prop :=
  match statsDocument s with
  | Document (Some statsData) | ReadOnly (Some statsData) =>
      Forall nonNegative statsData
  | _ => True
  end.

Definition isUpdate (c : dbCall) : bool :=
  match c with
  | UpdateDocument _ => true
  | GetDocument _ => false
  end.

(** The lowest value that creations minus deletions takes over the prefixes
    of a sequence, the empty prefix included: it is at most 0. *)
Fixpoint lowest (evs : list delivery) : Z :=
  match evs with
  | [] => 0%Z
  | ev :: evs' => Z.min 0 (increment ev.1 + lowest evs')
  end.

(** No call in [cs] is an [updateDocument]. *)
Definition writesNothing (cs : list dbCall) : Prop :=
  forallb (λ c, negb (isUpdate c)) cs = true.

(** Descending order of [total]. *)
Definition totalGe (a b : StatsEntry) : Prop := (total b ≤ total a)%Z.

(** ** Sample configuration and stores *)

Definition env0 : Env := {|
  APPWRITE_NOTE_COLLECTION_ID := "notes";
  APPWRITE_FORM_COLLECTION_ID := "forms";
  APPWRITE_YOUTUBE_COLLECTION_ID := "youtube"
|}.

Definition emptyStore : Store := {|
  statsDocument := Document (Some []);
  linksCacheDocument := Document None;
  uploadersCacheDocument := Document None
|}.

(** A store whose documents were provisioned with no [data] at all. *)
Definition blankStore : Store := {|
  statsDocument := Document None;
  linksCacheDocument := Document None;
  uploadersCacheDocument := Document None
|}.

Definition payload (userName createdBy abbreviation : option string) : EventData :=
  {| userName := userName; createdBy := createdBy; abbreviation := abbreviation |}.

Definition entry (name : string) (notes forms youtube total : Z) : StatsEntry :=
  {| name := name; notes := notes; forms := forms; youtube := youtube; total := total |}.

(** ** Events by the operation their name ends with *)

(** [s.endsWith(suffix)]. *)
Fixpoint endsWith (s suffix : string) : bool :=
  String.eqb s suffix ||
  match s with
  | EmptyString => false
  | String _ rest => endsWith rest suffix
  end.

(** The platform names the operation at the end of the event name (README,
    "Event Triggers": [databases.*.collections.*.documents.*.create], and
    likewise [.delete] and [.update]). *)
Definition isCreation (event : string) : bool := endsWith event ".create".

Definition isDeletion (event : string) : bool := endsWith event ".delete".

(** The events whose operation the tests of lines 15 and 35 get right: every
    creation, and the deletions in whose name nothing reads [.create]. *)
Definition recognised (event : string) : bool :=
  isCreation event || (isDeletion event && negb (includes event ".create")).

Definition creations (evs : list delivery) : Z :=
  Z.of_nat (length (List.filter (λ ev : delivery, isCreation ev.1) evs)).

Definition deletions (evs : list delivery) : Z :=
  Z.of_nat (length (List.filter (λ ev : delivery, isDeletion ev.1) evs)).

(** Creations minus deletions. *)
Definition balance (evs : list delivery) : Z := (creations evs - deletions evs)%Z.

(** [low] is the lowest balance met along the sequence: the least of the
    balances of its prefixes, the empty prefix (balance 0) included. *)
Definition lowestBalance (evs : list delivery) (low : Z) : Prop :=
  (∀ k : nat, (low ≤ balance (take k evs))%Z)
  ∧ ∃ k : nat, low = balance (take k evs).

(** The entry as lines 37-46 leave it when the collection is not tracked:
    [delta] on [total], then the four counters clamped. *)
Definition bookedOnTotal (delta : Z) (u : StatsEntry) : StatsEntry :=
  {| name := name u;
     notes := Z.max 0 (notes u);
     forms := Z.max 0 (forms u);
     youtube := Z.max 0 (youtube u);
     total := Z.max 0 (total u + delta) |}.

(** ** Vocabulary of the further properties *)

(** The name Appwrite gives to a document event (README, "Event Triggers"):
    [rest] is the operation, preceded by the document identifier when the
    platform includes it. *)
Definition eventName (databaseId collId rest : string) : string :=
  "databases." ++ databaseId ++ ".collections." ++ collId ++ ".documents." ++ rest.

(** Strictly ascending in code unit order: sorted, and free of duplicates. *)
Definition strictlyAscending (l : list string) : Prop :=
  StronglySorted (λ a b, codeUnitCompare a b = Lt) l.

(** [total] does not exceed the sum of the three category counters. *)
Definition withinCategories (u : StatsEntry) : Prop :=
  (total u ≤ notes u + forms u + youtube u)%Z.

(** Lines 37-46 applied to the entries of [userName], the others left alone. *)
Definition book (env : Env) (event userName : string) (u : StatsEntry) : StatsEntry :=
  if decide (name u = userName) then clampCounts (addIncrement env event u) else u.

(** The calls a task may make on its document: none, one read, or one read
    followed by one write. *)
Definition callsOn (doc : docId) (cs : list dbCall) : Prop :=
  cs = [] ∨ cs = [GetDocument doc] ∨ cs = [GetDocument doc; UpdateDocument doc].

(** The array a cache document holds under [key] ([[]] when it has none). *)
Definition listedUnder (key : string) (d : document (gmap string (list string)))
  : list string :=
  match d with
  | Document (Some obj) | ReadOnly (Some obj) => default [] (obj !! key)
  | _ => []
  end.

(** Lines 78-80 and 122-124 on one array: the name is pushed and the array
    sorted, unless the array holds the name already. *)
Definition withName (userName : string) (arr : list string) : list string :=
  if arrayIncludes arr userName then arr
  else sort defaultCompare (arr ++ [userName])%list.

(** * Properties *)

(** ** The scenarios of the specification, run on the model *)

Example split_event :
  split "." "databases.main.collections.notes.documents.create"
  = ["databases"; "main"; "collections"; "notes"; "documents"; "create"].
Proof. reflexivity. Qed.

Example scenario_A :
  settle (updateTeacherStats env0 "databases.main.collections.notes.documents.create"
            (payload (Some "Alice") None None)) emptyStore
  = (fulfilled,
     statsRef.(writeSlot) (Document (Some [ entry "Alice" 1 0 0 1 ])) emptyStore,
     [GetDocument STATS_DOCUMENT_ID; UpdateDocument STATS_DOCUMENT_ID]).
Proof. reflexivity. Qed.

Example scenario_B :
  applyEvent env0 "databases.main.collections.youtube.documents.delete" "Bob"
    [ entry "Bob" 0 0 1 1 ]
  = [ entry "Bob" 0 0 0 0 ].
Proof. reflexivity. Qed.

Example scenario_C :
  settle (updateLinksCache "databases.main.collections.links.documents.create"
            (payload None (Some "Alice") None))
         (linksRef.(writeSlot) (Document (Some {[ "uploaders" := ["Carol"] ]})) emptyStore)
  = (fulfilled,
     linksRef.(writeSlot) (Document (Some {[ "uploaders" := ["Alice"; "Carol"] ]})) emptyStore,
     [GetDocument LINKS_UPLOADERS_CACHE_DOCUMENT_ID;
      UpdateDocument LINKS_UPLOADERS_CACHE_DOCUMENT_ID]).
Proof. vm_compute. reflexivity. Qed.

Example scenario_D :
  settle (updateUploaderCache env0 "databases.main.collections.notes.documents.create"
            (payload (Some "Dan") None (Some "PHY"))) emptyStore
  = (fulfilled,
     uploadersRef.(writeSlot)
       (Document (Some (<["PHY" := ["Dan"]]> {[ "all" := ["Dan"] ]}))) emptyStore,
     [GetDocument UPLOADERS_CACHE_DOCUMENT_ID;
      UpdateDocument UPLOADERS_CACHE_DOCUMENT_ID]).
Proof. vm_compute. reflexivity. Qed.

Example includes_examples :
  includes "databases.main.collections.notes.documents.create" ".create" = true
  ∧ includes "databases.main.collections.notes.documents.update" ".create" = false
  ∧ includes "abc" "" = true
  ∧ includes "" "a" = false.
Proof. repeat split. Qed.

Example split_examples :
  split "." "" = [""] ∧ split "." "a." = ["a"; ""] ∧ split "." ".a" = [""; "a"]
  ∧ collectionId "databases.main" = None.
Proof. repeat split. Qed.

Example sort_names :
  sort defaultCompare ["bob"; "Carol"; "al"; "alice"; "Bob"]
  = ["Bob"; "Carol"; "al"; "alice"; "bob"].
Proof. reflexivity. Qed.

(** The stable sort keeps the order of entries that have equal totals. *)
Example sort_ties :
  sort byTotalDesc [ entry "a" 0 0 0 1; entry "b" 0 0 0 2; entry "c" 0 0 0 1;
                     entry "d" 0 0 0 2 ]
  = [ entry "b" 0 0 0 2; entry "d" 0 0 0 2; entry "a" 0 0 0 1; entry "c" 0 0 0 1 ].
Proof. reflexivity. Qed.

(** A subject named after a method of [Object.prototype] makes the task
    fail before it writes. *)
Example inherited_subject :
  settle (updateUploaderCache env0 "databases.main.collections.notes.documents.create"
            (payload (Some "Dan") None (Some "constructor"))) emptyStore
  = (rejected (TypeError "cacheData[abbreviation].includes is not a function"),
     emptyStore, [GetDocument UPLOADERS_CACHE_DOCUMENT_ID]).
Proof. vm_compute. reflexivity. Qed.

(** ** What each task does, case by case *)

Lemma updateTeacherStats_settle env event eventData s :
  settle (updateTeacherStats env event eventData) s =
  if negb (includes event ".create") && negb (includes event ".delete")
  then (fulfilled, s, [])
  else
    match attribution eventData with
    | None => (fulfilled, s, [])
    | Some userName =>
        match statsDocument s with
        | NotFound =>
            (rejected (StoreError STATS_DOCUMENT_ID), s, [GetDocument STATS_DOCUMENT_ID])
        | Document None =>
            (rejected (TypeError "statsData.find is not a function"), s,
             [GetDocument STATS_DOCUMENT_ID])
        | Document (Some statsData) =>
            (fulfilled,
             statsRef.(writeSlot)
               (Document (Some (applyEvent env event userName statsData))) s,
             [GetDocument STATS_DOCUMENT_ID; UpdateDocument STATS_DOCUMENT_ID])
        | ReadOnly None =>
            (rejected (TypeError "statsData.find is not a function"), s,
             [GetDocument STATS_DOCUMENT_ID])
        | ReadOnly (Some _) =>
            (rejected (UpdateRefused STATS_DOCUMENT_ID), s,
             [GetDocument STATS_DOCUMENT_ID; UpdateDocument STATS_DOCUMENT_ID])
        end
    end.
Proof.
  unfold updateTeacherStats, attribution.
  destruct (negb (includes event ".create") && negb (includes event ".delete"));
    [reflexivity|].
  destruct (truthy (orElse (userName eventData) (createdBy eventData)));
    [|reflexivity].
  unfold settle, getAndParseJSON, getDocument, updateDocument, bind, ret, throw; simpl.
  destruct (statsDocument s) as [|[statsData|]|[statsData|]] eqn:E; simpl;
    rewrite ?E; reflexivity.
Qed.

Lemma updateLinksCache_settle event eventData s :
  settle (updateLinksCache event eventData) s =
  if negb (includes event ".create") then (fulfilled, s, [])
  else
    match truthy (createdBy eventData) with
    | None => (fulfilled, s, [])
    | Some uploaderName =>
        match linksCacheDocument s with
        | NotFound =>
            (rejected (StoreError LINKS_UPLOADERS_CACHE_DOCUMENT_ID), s,
             [GetDocument LINKS_UPLOADERS_CACHE_DOCUMENT_ID])
        | Document data =>
            let uploaders :=
              default [] (asObject (from_option Parsed EmptyObject data) !! "uploaders") in
            if arrayIncludes uploaders uploaderName
            then (fulfilled, s, [GetDocument LINKS_UPLOADERS_CACHE_DOCUMENT_ID])
            else
              (fulfilled,
               linksRef.(writeSlot)
                 (Document (Some {[ "uploaders" :=
                    sort defaultCompare (uploaders ++ [uploaderName])%list ]})) s,
               [GetDocument LINKS_UPLOADERS_CACHE_DOCUMENT_ID;
                UpdateDocument LINKS_UPLOADERS_CACHE_DOCUMENT_ID])
        | ReadOnly data =>
            let uploaders :=
              default [] (asObject (from_option Parsed EmptyObject data) !! "uploaders") in
            if arrayIncludes uploaders uploaderName
            then (fulfilled, s, [GetDocument LINKS_UPLOADERS_CACHE_DOCUMENT_ID])
            else
              (rejected (UpdateRefused LINKS_UPLOADERS_CACHE_DOCUMENT_ID), s,
               [GetDocument LINKS_UPLOADERS_CACHE_DOCUMENT_ID;
                UpdateDocument LINKS_UPLOADERS_CACHE_DOCUMENT_ID])
        end
    end.
Proof.
  unfold updateLinksCache.
  destruct (negb (includes event ".create")); [reflexivity|].
  destruct (truthy (createdBy eventData)); [|reflexivity].
  unfold settle, getAndParseJSON, getDocument, updateDocument, bind, ret, throw; simpl.
  destruct (linksCacheDocument s) as [|data|data] eqn:E; simpl; [reflexivity| |].
  all: destruct data as [obj|]; simpl;
    match goal with |- context [arrayIncludes ?l ?x] => destruct (arrayIncludes l x) end;
    simpl; rewrite ?E; reflexivity.
Qed.

Lemma updateUploaderCache_settle env event eventData s :
  settle (updateUploaderCache env event eventData) s =
  if negb (includes event ("collections." ++ APPWRITE_NOTE_COLLECTION_ID env))
  then (fulfilled, s, [])
  else if negb (includes event ".create") then (fulfilled, s, [])
  else
    match truthy (userName eventData), truthy (abbreviation eventData) with
    | Some userName, Some abbreviation =>
        match uploadersCacheDocument s with
        | NotFound =>
            (rejected (StoreError UPLOADERS_CACHE_DOCUMENT_ID), s,
             [GetDocument UPLOADERS_CACHE_DOCUMENT_ID])
        | Document data =>
            match addUploader userName abbreviation
                    (asObject (from_option Parsed EmptyObject data)) with
            | None =>
                (rejected (TypeError "cacheData[abbreviation].includes is not a function"),
                 s, [GetDocument UPLOADERS_CACHE_DOCUMENT_ID])
            | Some (cacheData, true) =>
                (fulfilled, uploadersRef.(writeSlot) (Document (Some cacheData)) s,
                 [GetDocument UPLOADERS_CACHE_DOCUMENT_ID;
                  UpdateDocument UPLOADERS_CACHE_DOCUMENT_ID])
            | Some (_, false) =>
                (fulfilled, s, [GetDocument UPLOADERS_CACHE_DOCUMENT_ID])
            end
        | ReadOnly data =>
            match addUploader userName abbreviation
                    (asObject (from_option Parsed EmptyObject data)) with
            | None =>
                (rejected (TypeError "cacheData[abbreviation].includes is not a function"),
                 s, [GetDocument UPLOADERS_CACHE_DOCUMENT_ID])
            | Some (_, true) =>
                (rejected (UpdateRefused UPLOADERS_CACHE_DOCUMENT_ID), s,
                 [GetDocument UPLOADERS_CACHE_DOCUMENT_ID;
                  UpdateDocument UPLOADERS_CACHE_DOCUMENT_ID])
            | Some (_, false) =>
                (fulfilled, s, [GetDocument UPLOADERS_CACHE_DOCUMENT_ID])
            end
        end
    | _, _ => (fulfilled, s, [])
    end.
Proof.
  unfold updateUploaderCache.
  destruct (negb (includes event _)); [reflexivity|].
  destruct (negb (includes event ".create")); [reflexivity|].
  destruct (truthy (userName eventData)) as [u|]; [|reflexivity].
  destruct (truthy (abbreviation eventData)) as [a|]; [|reflexivity].
  unfold settle, getAndParseJSON, getDocument, updateDocument, bind, ret, throw; simpl.
  destruct (uploadersCacheDocument s) as [|data|data] eqn:E; simpl; [reflexivity| |].
  all: destruct data as [obj|]; simpl;
    (destruct (addUploader u a _) as [[cacheData []]|]; simpl; rewrite ?E; reflexivity).
Qed.

(** ** Reading a document that has no payload *)

Lemma getAndParseJSON_empty {T} (r : docRef T) w :
  readSlot r (store w) = Document None →
  getAndParseJSON r w = (Normal EmptyObject, logCall (GetDocument (refId r)) w).
Proof.
  intros E. unfold getAndParseJSON, getDocument, bind, ret. rewrite E. reflexivity.
Qed.

(** On a cache document the default [{}] is the empty mapping, and both
    cache tasks go on from it. *)
Lemma asObject_empty : asObject EmptyObject = ∅.
Proof. reflexivity. Qed.

(** C2.  A stats document whose [data] is empty is read as the object [{}],
    not as the empty array: the helper falls back on the text ['{}'] for
    every document.  The teacher statistics task then fails on
    [statsData.find] and writes nothing, whereas on the stored array [[]]
    it records the first contribution. *)
Theorem C2_empty_stats_payload_is_rejected :
  let event := "databases.main.collections.notes.documents.create" in
  let eventData := payload (Some "Alice") None None in
  (getAndParseJSON statsRef {| store := blankStore; calls := [] |}).1
    = Normal EmptyObject
  ∧ settle (updateTeacherStats env0 event eventData) blankStore
    = (rejected (TypeError "statsData.find is not a function"), blankStore,
       [GetDocument STATS_DOCUMENT_ID])
  ∧ settle (updateTeacherStats env0 event eventData) emptyStore
    = (fulfilled,
       statsRef.(writeSlot) (Document (Some [ entry "Alice" 1 0 0 1 ])) emptyStore,
       [GetDocument STATS_DOCUMENT_ID; UpdateDocument STATS_DOCUMENT_ID]).
Proof. repeat split. Qed.

(** ** The handler *)

Lemma dispatch_responds tasks s :
  ∃ reported s', dispatch tasks s = (Responded processed, reported, s').
Proof.
  unfold dispatch. destruct (allSettled tasks s) as [results s'].
  eexists _, _. reflexivity.
Qed.

(** C6.  Once the client is built, the handler answers with the success
    response (status 200) whatever the event, the payload and the store
    are, hence however the three tasks settle. *)
Theorem C6_handler_reports_success env req s :
  ∃ reported s',
    handler (Normal tt) env req s = (Responded processed, reported, s')
    ∧ success processed = true
    ∧ statusCode processed = 200%Z.
Proof.
  destruct (dispatch_responds
    [ withEvent (x_appwrite_event req)
        (fun event => updateTeacherStats env event (body req));
      withEvent (x_appwrite_event req)
        (fun event => updateLinksCache event (body req));
      withEvent (x_appwrite_event req)
        (fun event => updateUploaderCache env event (body req)) ] s)
    as (reported & s' & E).
  exists reported, s'. simpl. rewrite E. repeat split.
Qed.

(** All three tasks fail when none of the documents exists, and the
    response is the same. *)
Example handler_all_tasks_fail :
  handler (Normal tt) env0
    {| x_appwrite_event := Some "databases.main.collections.notes.documents.create";
       body := payload (Some "Dan") (Some "Dan") (Some "PHY") |}
    {| statsDocument := NotFound; linksCacheDocument := NotFound;
       uploadersCacheDocument := NotFound |}
  = (Responded processed,
     [ (1%nat, StoreError STATS_DOCUMENT_ID);
       (2%nat, StoreError LINKS_UPLOADERS_CACHE_DOCUMENT_ID);
       (3%nat, StoreError UPLOADERS_CACHE_DOCUMENT_ID) ],
     {| statsDocument := NotFound; linksCacheDocument := NotFound;
        uploadersCacheDocument := NotFound |}).
Proof. reflexivity. Qed.

(** C3.  The client is built on lines 147-151, before the [try] of line 157
    is entered: an exception raised there leaves the handler, and no
    response is produced. *)
Theorem C3_client_failure_is_not_caught e env req s :
  handler (Throw e) env req s = (Uncaught e, [], s).
Proof. reflexivity. Qed.

(** ** The collection filter of the uploader cache *)

Lemma updateUploaderCache_skips_other_events env event eventData s :
  includes event ("collections." ++ APPWRITE_NOTE_COLLECTION_ID env) = false →
  settle (updateUploaderCache env event eventData) s = (fulfilled, s, []).
Proof.
  intros E. rewrite updateUploaderCache_settle, E. reflexivity.
Qed.

(** C4.  The filter of line 98 looks for the text [collections.<notes id>]
    anywhere in the event name.  An event on the collection [notes2] passes
    it when the notes collection is [notes], and the cache is written. *)
Theorem C4_longer_collection_id_is_not_skipped :
  let event := "databases.main.collections.notes2.documents.d1.create" in
  collectionId event = Some "notes2"
  ∧ collectionId event ≠ Some (APPWRITE_NOTE_COLLECTION_ID env0)
  ∧ settle (updateUploaderCache env0 event (payload (Some "Dan") None (Some "PHY")))
      emptyStore
    = (fulfilled,
       uploadersRef.(writeSlot)
         (Document (Some (<["PHY" := ["Dan"]]> {[ "all" := ["Dan"] ]}))) emptyStore,
       [GetDocument UPLOADERS_CACHE_DOCUMENT_ID;
        UpdateDocument UPLOADERS_CACHE_DOCUMENT_ID]).
Proof.
  split; [reflexivity|]. split; [discriminate|]. vm_compute. reflexivity.
Qed.

(** ** The stable sort *)

Section Sort.
Context {A : Type} (comparefn : A → A → Z).

Lemma sortInsert_perm x l : sortInsert comparefn x l ≡ₚ x :: l.
Proof.
  induction l as [|y l IH]; simpl; [reflexivity|].
  destruct (comparefn x y <=? 0)%Z; [reflexivity|].
  rewrite IH. apply Permutation_swap.
Qed.

Lemma sort_perm l : sort comparefn l ≡ₚ l.
Proof.
  induction l as [|x l IH]; simpl; [reflexivity|].
  rewrite sortInsert_perm, IH. reflexivity.
Qed.

Lemma sort_Forall (P : A → Prop) l : Forall P l → Forall P (sort comparefn l).
Proof. intros H. rewrite sort_perm. exact H. Qed.

Lemma sort_singleton x : sort comparefn [x] = [x].
Proof. reflexivity. Qed.
End Sort.

Lemma sortInsert_byTotalDesc_sorted x l :
  StronglySorted totalGe l → StronglySorted totalGe (sortInsert byTotalDesc x l).
Proof.
  induction 1 as [|y l Hl IH Hy]; simpl.
  - repeat constructor.
  - unfold byTotalDesc at 1. destruct (Z.leb_spec (total y - total x) 0) as [Hle|Hgt].
    + constructor; [constructor; assumption|].
      constructor; [unfold totalGe; lia|].
      eapply Forall_impl; [exact Hy|]. unfold totalGe. intros z Hz. lia.
    + constructor; [assumption|].
      rewrite sortInsert_perm. constructor; [unfold totalGe; lia | assumption].
Qed.

Lemma sort_byTotalDesc_sorted l : StronglySorted totalGe (sort byTotalDesc l).
Proof.
  induction l as [|x l IH]; simpl; [constructor|].
  apply sortInsert_byTotalDesc_sorted, IH.
Qed.

(** Stability: the entries that have a given total come out in the order
    in which they went in. *)
Lemma sortInsert_byTotalDesc_stable t x l :
  filter (λ u, total u = t) (sortInsert byTotalDesc x l)
  = filter (λ u, total u = t) (x :: l).
Proof.
  induction l as [|y l IH]; simpl; [reflexivity|].
  unfold byTotalDesc at 1. destruct (Z.leb_spec (total y - total x) 0) as [Hle|Hgt];
    [reflexivity|].
  rewrite filter_cons, IH, !filter_cons.
  repeat case_decide; try reflexivity; lia.
Qed.

Lemma sort_byTotalDesc_stable t l :
  filter (λ u, total u = t) (sort byTotalDesc l) = filter (λ u, total u = t) l.
Proof.
  induction l as [|x l IH]; simpl; [reflexivity|].
  rewrite sortInsert_byTotalDesc_stable, !filter_cons, IH. reflexivity.
Qed.

(** Sortedness and stability determine the result: whatever stable
    algorithm the engine runs, it returns the array computed by [sort]. *)
Lemma sorted_stable_unique l1 l2 :
  StronglySorted totalGe l1 → StronglySorted totalGe l2 →
  (∀ t, filter (λ u, total u = t) l1 = filter (λ u, total u = t) l2) →
  l1 = l2.
Proof.
  intros S1. revert l2.
  induction S1 as [|x l1 S1 IH Hx]; intros l2 S2 H.
  - destruct l2 as [|y l2]; [reflexivity|].
    specialize (H (total y)). rewrite filter_cons in H.
    case_decide; [discriminate | congruence].
  - destruct S2 as [|y l2 S2 Hy].
    + specialize (H (total x)). rewrite filter_cons in H.
      case_decide; [discriminate | congruence].
    + assert (Hxy : total x = total y).
      { assert (x ∈ y :: l2) as Hin.
        { pose proof (H (total x)) as Ht. rewrite filter_cons in Ht.
          case_decide; [|congruence].
          eapply (list_elem_of_filter (λ u, total u = total x)).
          rewrite <- Ht. left. }
        assert (y ∈ x :: l1) as Hin'.
        { pose proof (H (total y)) as Ht. rewrite (filter_cons _ y) in Ht.
          case_decide; [|congruence].
          eapply (list_elem_of_filter (λ u, total u = total y)).
          rewrite Ht. left. }
        apply elem_of_cons in Hin as [->|Hin]; [reflexivity|].
        apply elem_of_cons in Hin' as [->|Hin']; [reflexivity|].
        rewrite Forall_forall in Hx, Hy.
        specialize (Hx _ Hin'). specialize (Hy _ Hin). unfold totalGe in *. lia. }
      assert (x = y ∧ ∀ t, filter (λ u, total u = t) l1 = filter (λ u, total u = t) l2)
        as [-> Htl].
      { split.
        - specialize (H (total x)). rewrite !filter_cons in H.
          repeat case_decide; try congruence.
        - intros t. specialize (H t). rewrite !filter_cons in H.
          repeat case_decide; congruence. }
      f_equal. apply IH; assumption.
Qed.

Lemma stable_sort_unique l l' :
  StronglySorted totalGe l' →
  (∀ t, filter (λ u, total u = t) l' = filter (λ u, total u = t) l) →
  l' = sort byTotalDesc l.
Proof.
  intros S H. apply sorted_stable_unique; [assumption | apply sort_byTotalDesc_sorted |].
  intros t. rewrite sort_byTotalDesc_stable. apply H.
Qed.

(** ** The entry an event is booked on *)

Lemma list_alter_lookup {A} (f : A → A) (l : list A) i x :
  l !! i = Some x → alter f i l = <[i := f x]> l.
Proof.
  revert i. induction l as [|y l IH]; intros [|i] H; simpl in *; try discriminate.
  - congruence.
  - f_equal. apply IH, H.
Qed.

(** [locate] always returns the index of an entry of that name. *)
Lemma locate_lookup userName statsData :
  ∃ userStats,
    (locate userName statsData).1 !! (locate userName statsData).2 = Some userStats
    ∧ name userStats = userName.
Proof.
  unfold locate.
  destruct (list_find (λ u, name u = userName) statsData) as [[i u]|] eqn:E; simpl.
  - apply list_find_Some in E as (Hi & Hu & _). eauto.
  - exists (freshEntry userName). split; [|reflexivity].
    rewrite lookup_app_r, Nat.sub_diag by lia. reflexivity.
Qed.

Lemma clampCounts_nonNegative u : nonNegative (clampCounts u).
Proof. unfold nonNegative, clampCounts; simpl. lia. Qed.

Lemma mutateStats_nonNegative env event userName statsData :
  Forall nonNegative statsData →
  Forall nonNegative (mutateStats env event userName statsData).
Proof.
  intros H. unfold mutateStats, locate.
  destruct (list_find (λ u, name u = userName) statsData) as [[i u]|].
  - apply Forall_alter; [assumption|]. intros; apply clampCounts_nonNegative.
  - apply Forall_alter; [|intros; apply clampCounts_nonNegative].
    apply Forall_app. split; [assumption|].
    repeat constructor; simpl; lia.
Qed.

Lemma updateTeacherStats_nonNegative env event eventData s :
  statsNonNegative s →
  statsNonNegative (storeAfter (updateTeacherStats env event eventData) s).
Proof.
  intros H. unfold storeAfter. rewrite updateTeacherStats_settle.
  destruct (negb (includes event ".create") && negb (includes event ".delete"));
    [exact H|].
  destruct (attribution eventData) as [userName|]; [|exact H].
  unfold statsNonNegative in *.
  destruct (statsDocument s) as [|[statsData|]|[statsData|]] eqn:E; simpl;
    rewrite ?E; try exact I; try exact H.
  apply sort_Forall, mutateStats_nonNegative, H.
Qed.

(** C7.  If every counter of every stored entry is at least 0 before the
    teacher statistics task handles an event, so is it afterwards, whatever
    the event is. *)
Theorem C7_counters_stay_non_negative env event eventData s :
  statsNonNegative s →
  statsNonNegative (storeAfter (updateTeacherStats env event eventData) s).
Proof. apply updateTeacherStats_nonNegative. Qed.

Lemma C7_witness :
  statsNonNegative emptyStore
  ∧ statsNonNegative
      (storeAfter (updateTeacherStats env0
                     "databases.main.collections.notes.documents.delete"
                     (payload (Some "Alice") None None)) emptyStore).
Proof.
  split.
  - constructor.
  - apply C7_counters_stay_non_negative. constructor.
Defined.

(** The same over any sequence of deliveries, in any order. *)
Lemma statsEvents_nonNegative env evs s :
  statsNonNegative s → statsNonNegative (statsEvents env evs s).
Proof.
  unfold statsEvents. revert s.
  induction evs as [|ev evs IH]; intros s H; simpl; [exact H|].
  apply IH, updateTeacherStats_nonNegative, H.
Qed.

(** A deletion that arrives first leaves all counters at 0. *)
Example delete_before_create :
  statsDocument
    (statsEvents env0
       [ ("databases.main.collections.notes.documents.delete",
          payload (Some "Alice") None None) ] emptyStore)
  = Document (Some [ entry "Alice" 0 0 0 0 ]).
Proof. reflexivity. Qed.



(** ** Events on a collection that is not tracked *)

Lemma addIncrement_untracked env event userStats :
  ¬ tracked env event →
  addIncrement env event userStats
  = {| name := name userStats;
       notes := notes userStats;
       forms := forms userStats;
       youtube := youtube userStats;
       total := (total userStats + increment event)%Z |}.
Proof.
  intros H. unfold addIncrement, tracked in *.
  repeat case_bool_decide; try reflexivity; exfalso; apply H; auto.
Qed.

Lemma increment_create event : isCreate event = true → increment event = 1%Z.
Proof. unfold isCreate, increment. intros ->. reflexivity. Qed.

Lemma increment_delete event : isDelete event = true → increment event = (-1)%Z.
Proof.
  unfold isDelete, increment. intros H.
  apply andb_true_iff in H as [H _]. apply negb_true_iff in H. rewrite H. reflexivity.
Qed.

(** A deletion on a collection that is not tracked takes the entry from
    total 1 to total 0 and leaves its category counters. *)
Example untracked_delete :
  applyEvent env0 "databases.main.collections.links.documents.delete" "Alice"
    [ entry "Alice" 1 0 0 1 ]
  = [ entry "Alice" 1 0 0 0 ].
Proof. reflexivity. Qed.

(** ** The uploader cache when the subject is called "all" *)

Lemma truthy_Some s : s ≠ "" → truthy (Some s) = Some s.
Proof.
  intros H. unfold truthy. destruct (String.eqb_spec s ""); [contradiction | reflexivity].
Qed.

Lemma arrayIncludes_elem_of arr x : arrayIncludes arr x = true ↔ x ∈ arr.
Proof.
  unfold arrayIncludes. rewrite existsb_exists. split.
  - intros (y & Hin & Heq). apply String.eqb_eq in Heq as ->.
    apply list_elem_of_In, Hin.
  - intros Hin. exists x. split; [apply list_elem_of_In, Hin | apply String.eqb_refl].
Qed.

Lemma addUploader_all_empty u :
  addUploader u "all" ∅ = Some ({[ "all" := [u] ]}, true).
Proof.
  unfold addUploader, getProp.
  rewrite lookup_empty; simpl. rewrite lookup_insert_eq, insert_insert_eq.
  unfold addUnder. rewrite lookup_insert_eq; simpl. rewrite insert_insert_eq.
  rewrite lookup_insert_eq; simpl. rewrite String.eqb_refl; simpl.
  rewrite insert_empty. reflexivity.
Qed.

(** C10.  A creation on the notes collection whose subject is ["all"],
    delivered to an empty uploader cache, writes the document
    [{ all: [u] }]: one key, holding the name once. *)
Theorem C10_subject_all_shares_the_global_key env event eventData u data s :
  includes event ("collections." ++ APPWRITE_NOTE_COLLECTION_ID env) = true →
  isCreate event = true →
  userName eventData = Some u →
  u ≠ "" →
  abbreviation eventData = Some "all" →
  uploadersCacheDocument s = Document data →
  data = None ∨ data = Some ∅ →
  settle (updateUploaderCache env event eventData) s
  = (fulfilled,
     uploadersRef.(writeSlot) (Document (Some {[ "all" := [u] ]})) s,
     [GetDocument UPLOADERS_CACHE_DOCUMENT_ID;
      UpdateDocument UPLOADERS_CACHE_DOCUMENT_ID]).
Proof.
  intros Hnotes Hcreate Hu Hne Habbr Hdoc Hdata.
  unfold isCreate in Hcreate.
  rewrite updateUploaderCache_settle, Hnotes, Hcreate, Hu, Habbr, Hdoc.
  rewrite (truthy_Some u Hne), (truthy_Some "all") by discriminate. simpl.
  assert (asObject (from_option Parsed EmptyObject data) = ∅) as ->.
  { destruct Hdata as [-> | ->]; reflexivity. }
  rewrite addUploader_all_empty. reflexivity.
Qed.

Lemma C10_witness :
  settle (updateUploaderCache env0 "databases.main.collections.notes.documents.create"
            (payload (Some "Dan") None (Some "all"))) emptyStore
  = (fulfilled,
     uploadersRef.(writeSlot) (Document (Some {[ "all" := ["Dan"] ]})) emptyStore,
     [GetDocument UPLOADERS_CACHE_DOCUMENT_ID;
      UpdateDocument UPLOADERS_CACHE_DOCUMENT_ID]).
Proof.
  apply (C10_subject_all_shares_the_global_key env0 _ _ "Dan" None emptyStore).
  - reflexivity.
  - reflexivity.
  - reflexivity.
  - discriminate.
  - reflexivity.
  - reflexivity.
  - left. reflexivity.
Defined.

(** The single key and the single occurrence, read off the written object. *)
Lemma singleton_all_object (u : string) :
  dom ({[ "all" := [u] ]} : gmap string (list string)) = {[ "all" ]}
  ∧ ({[ "all" := [u] ]} : gmap string (list string)) !! "all" = Some [u]
  ∧ NoDup [u].
Proof.
  split; [apply dom_singleton_L|]. split; [apply lookup_singleton_eq|].
  apply NoDup_singleton.
Qed.

(** ** Delivering a creation twice *)

Lemma sort_includes x arr :
  arrayIncludes (sort defaultCompare (arr ++ [x])%list) x = true.
Proof.
  apply arrayIncludes_elem_of. rewrite sort_perm.
  apply elem_of_app. right. left.
Qed.

Lemma arrayIncludes_default (o : option (list string)) x :
  arrayIncludes (default [] o) x = true → ∃ arr, o = Some arr ∧ x ∈ arr.
Proof.
  destruct o as [arr|]; simpl; [|discriminate].
  intros H. exists arr. split; [reflexivity | apply arrayIncludes_elem_of, H].
Qed.

(** After [addUnder key], the name is listed under [key]. *)
Lemma addUnder_key key u (m : gmap string (list string)) :
  ∃ arr, (addUnder key u m).1 !! key = Some arr ∧ u ∈ arr.
Proof.
  unfold addUnder.
  destruct (arrayIncludes (default [] (m !! key)) u) eqn:E; simpl.
  - apply arrayIncludes_default, E.
  - rewrite lookup_insert_eq. eexists. split; [reflexivity|].
    apply arrayIncludes_elem_of, sort_includes.
Qed.

(** [addUnder] keeps the name wherever it is listed already. *)
Lemma addUnder_keeps key key' u (m : gmap string (list string)) arr :
  m !! key' = Some arr → u ∈ arr →
  ∃ arr', (addUnder key u m).1 !! key' = Some arr' ∧ u ∈ arr'.
Proof.
  intros Hm Hu. destruct (decide (key = key')) as [<-|Hne].
  - apply addUnder_key.
  - exists arr. split; [|exact Hu]. unfold addUnder.
    destruct (arrayIncludes (default [] (m !! key)) u); simpl; [exact Hm|].
    rewrite lookup_insert_ne by exact Hne. exact Hm.
Qed.

Lemma addUnder_listed key u (m : gmap string (list string)) arr :
  m !! key = Some arr → u ∈ arr → addUnder key u m = (m, false).
Proof.
  intros Hm Hu. unfold addUnder. rewrite Hm; simpl.
  apply arrayIncludes_elem_of in Hu. rewrite Hu. reflexivity.
Qed.

(** Lines 119-131 change nothing once the name is listed under both keys. *)
Lemma addUploader_listed u a (m : gmap string (list string)) arrAll arr :
  m !! "all" = Some arrAll → u ∈ arrAll →
  m !! a = Some arr → u ∈ arr →
  addUploader u a m = Some (m, false).
Proof.
  intros HAll HuAll Ha Hua. unfold addUploader, getProp.
  rewrite HAll; simpl. rewrite (insert_id m "all" arrAll HAll), Ha.
  rewrite (insert_id m a arr Ha).
  rewrite (addUnder_listed "all" u m arrAll HAll HuAll).
  rewrite (addUnder_listed a u m arr Ha Hua). reflexivity.
Qed.

Lemma addUnder_twice_lists u a (m m' : gmap string (list string)) changed :
  (let '(cacheData, changedAll) := addUnder "all" u m in
   let '(cacheData, changedKey) := addUnder a u cacheData in
   Some (cacheData, changedAll || changedKey)) = Some (m', changed) →
  ∃ arrAll arr, m' !! "all" = Some arrAll ∧ u ∈ arrAll ∧ m' !! a = Some arr ∧ u ∈ arr.
Proof.
  destruct (addUnder_key "all" u m) as (arrAll & HAll & HuAll).
  destruct (addUnder "all" u m) as [m3 c1]; simpl in HAll.
  destruct (addUnder_key a u m3) as (arr & Ha & Hua).
  destruct (addUnder_keeps a "all" u m3 arrAll HAll HuAll) as (arrAll' & HAll' & HuAll').
  destruct (addUnder a u m3) as [m4 c2]; simpl in *.
  intros [= <- <-]. eauto 10.
Qed.

Lemma addUploader_lists u a (m m' : gmap string (list string)) changed :
  addUploader u a m = Some (m', changed) →
  ∃ arrAll arr, m' !! "all" = Some arrAll ∧ u ∈ arrAll ∧ m' !! a = Some arr ∧ u ∈ arr.
Proof.
  unfold addUploader.
  destruct (getProp _ a) as [own| |]; [|discriminate|]; apply addUnder_twice_lists.
Qed.

Lemma addUploader_twice u a (m m' : gmap string (list string)) changed :
  addUploader u a m = Some (m', changed) → addUploader u a m' = Some (m', false).
Proof.
  intros H. apply addUploader_lists in H as (arrAll & arr & HAll & HuAll & Ha & Hua).
  eapply addUploader_listed; eassumption.
Qed.

Lemma updateLinksCache_redelivery event eventData s s' cs :
  settle (updateLinksCache event eventData) s = (fulfilled, s', cs) →
  ∃ cs', settle (updateLinksCache event eventData) s' = (fulfilled, s', cs')
         ∧ writesNothing cs'.
Proof.
  rewrite !updateLinksCache_settle.
  destruct (negb (includes event ".create")).
  { intros [= <- <-]. eexists; split; reflexivity. }
  destruct (truthy (createdBy eventData)) as [uploaderName|].
  2: { intros [= <- <-]. eexists; split; reflexivity. }
  destruct (linksCacheDocument s) as [|data|data] eqn:E; [discriminate| |]; simpl.
  - destruct (arrayIncludes _ uploaderName) eqn:Einc.
    + intros [= <- <-]. rewrite E, Einc. eexists; split; reflexivity.
    + intros [= <- <-]. simpl. rewrite lookup_singleton_eq; simpl.
      rewrite sort_includes. eexists; split; reflexivity.
  - destruct (arrayIncludes _ uploaderName) eqn:Einc; [|discriminate].
    intros [= <- <-]. rewrite E, Einc. eexists; split; reflexivity.
Qed.

Lemma updateUploaderCache_redelivery env event eventData s s' cs :
  settle (updateUploaderCache env event eventData) s = (fulfilled, s', cs) →
  ∃ cs', settle (updateUploaderCache env event eventData) s' = (fulfilled, s', cs')
         ∧ writesNothing cs'.
Proof.
  rewrite !updateUploaderCache_settle.
  destruct (negb (includes event _)).
  { intros [= <- <-]. eexists; split; reflexivity. }
  destruct (negb (includes event ".create")).
  { intros [= <- <-]. eexists; split; reflexivity. }
  destruct (truthy (userName eventData)) as [u|].
  2: { intros [= <- <-]. eexists; split; reflexivity. }
  destruct (truthy (abbreviation eventData)) as [a|].
  2: { intros [= <- <-]. eexists; split; reflexivity. }
  destruct (uploadersCacheDocument s) as [|data|data] eqn:E; [discriminate| |].
  - destruct (addUploader u a _) as [[m' changed]|] eqn:Eadd; [|discriminate].
    destruct changed.
    + intros [= <- <-]. simpl.
      rewrite (addUploader_twice _ _ _ _ _ Eadd). eexists; split; reflexivity.
    + intros [= <- <-]. rewrite E, Eadd. eexists; split; reflexivity.
  - destruct (addUploader u a _) as [[m' changed]|] eqn:Eadd; [|discriminate].
    destruct changed; [discriminate|].
    intros [= <- <-]. rewrite E, Eadd. eexists; split; reflexivity.
Qed.

(** C9.  When a creation has been delivered successfully to the links cache
    task, or to the uploader cache task, delivering it again to the store
    left by the first delivery succeeds, leaves the store as it is and
    makes no [updateDocument] call. *)
Theorem C9_redelivery_writes_nothing env event eventData :
  isCreate event = true →
  (∀ s s' cs,
     settle (updateLinksCache event eventData) s = (fulfilled, s', cs) →
     ∃ cs', settle (updateLinksCache event eventData) s' = (fulfilled, s', cs')
            ∧ writesNothing cs')
  ∧ (∀ s s' cs,
       settle (updateUploaderCache env event eventData) s = (fulfilled, s', cs) →
       ∃ cs', settle (updateUploaderCache env event eventData) s' = (fulfilled, s', cs')
              ∧ writesNothing cs').
Proof.
  intros _. split; intros s s' cs.
  - apply updateLinksCache_redelivery.
  - apply updateUploaderCache_redelivery.
Qed.

Lemma C9_witness :
  let event := "databases.main.collections.notes.documents.create" in
  let eventData := payload (Some "Dan") (Some "Dan") (Some "PHY") in
  (∃ cs',
     settle (updateLinksCache event eventData)
       (linksRef.(writeSlot) (Document (Some {[ "uploaders" := ["Dan"] ]})) emptyStore)
     = (fulfilled,
        linksRef.(writeSlot) (Document (Some {[ "uploaders" := ["Dan"] ]})) emptyStore,
        cs')
     ∧ writesNothing cs')
  ∧ (∃ cs',
       settle (updateUploaderCache env0 event eventData)
         (uploadersRef.(writeSlot)
            (Document (Some (<["PHY" := ["Dan"]]> {[ "all" := ["Dan"] ]}))) emptyStore)
       = (fulfilled,
          uploadersRef.(writeSlot)
            (Document (Some (<["PHY" := ["Dan"]]> {[ "all" := ["Dan"] ]}))) emptyStore,
          cs')
       ∧ writesNothing cs').
Proof.
  intros event eventData.
  destruct (C9_redelivery_writes_nothing env0 event eventData eq_refl) as [HL HU].
  split.
  - apply (HL emptyStore _
             [GetDocument LINKS_UPLOADERS_CACHE_DOCUMENT_ID;
              UpdateDocument LINKS_UPLOADERS_CACHE_DOCUMENT_ID]).
    vm_compute. reflexivity.
  - apply (HU emptyStore _
             [GetDocument UPLOADERS_CACHE_DOCUMENT_ID;
              UpdateDocument UPLOADERS_CACHE_DOCUMENT_ID]).
    vm_compute. reflexivity.
Defined.

(** ** Sequences of creations and deletions for one user *)

Lemma statsEvents_cons env ev evs s :
  statsEvents env (ev :: evs) s
  = statsEvents env evs (storeAfter (updateTeacherStats env ev.1 ev.2) s).
Proof. reflexivity. Qed.

(** On a stored list, a sequence of create and delete events for [u] is a
    fold of [applyEvent]. *)
Lemma statsEvents_fold env u evs : ∀ s statsData,
  Forall (λ ev : delivery,
            isCreate ev.1 || isDelete ev.1 = true ∧ attribution ev.2 = Some u) evs →
  statsDocument s = Document (Some statsData) →
  statsDocument (statsEvents env evs s)
  = Document (Some (foldl (λ l (ev : delivery), applyEvent env ev.1 u l) statsData evs)).
Proof.
  induction evs as [|ev evs IH]; intros s statsData Hall Hdoc; [exact Hdoc|].
  apply Forall_cons in Hall as [[Hkind Hattr] Hall].
  rewrite statsEvents_cons. simpl. apply IH; [exact Hall|].
  unfold storeAfter. rewrite updateTeacherStats_settle, Hattr, Hdoc.
  assert (negb (includes ev.1 ".create") && negb (includes ev.1 ".delete") = false)
    as ->; [|reflexivity].
  unfold isCreate, isDelete in Hkind.
  destruct (includes ev.1 ".create"), (includes ev.1 ".delete"); simpl in *; congruence.
Qed.

Lemma applyEvent_single env event u userStats :
  name userStats = u →
  applyEvent env event u [userStats] = [clampCounts (addIncrement env event userStats)].
Proof.
  intros H. unfold applyEvent, mutateStats, locate. simpl.
  case_decide; [reflexivity | contradiction].
Qed.

Lemma applyEvent_nil env event u :
  applyEvent env event u [] = applyEvent env event u [freshEntry u].
Proof. rewrite applyEvent_single by reflexivity. reflexivity. Qed.

Lemma creates_cons ev evs :
  creates (ev :: evs) = ((if isCreate ev.1 then 1 else 0) + creates evs)%Z.
Proof. unfold creates. simpl. destruct (isCreate ev.1); simpl length; lia. Qed.

Lemma deletes_cons ev evs :
  deletes (ev :: evs) = ((if isDelete ev.1 then 1 else 0) + deletes evs)%Z.
Proof. unfold deletes. simpl. destruct (isDelete ev.1); simpl length; lia. Qed.

Lemma net_cons (ev : delivery) evs :
  isCreate ev.1 || isDelete ev.1 = true →
  net (ev :: evs) = (increment ev.1 + net evs)%Z.
Proof.
  intros H. unfold net. rewrite creates_cons, deletes_cons.
  unfold isCreate, isDelete, increment in *.
  destruct (includes ev.1 ".create"), (includes ev.1 ".delete");
    simpl in *; try discriminate; lia.
Qed.

Lemma net_onCollection_cons coll (ev : delivery) evs :
  isCreate ev.1 || isDelete ev.1 = true →
  net (onCollection coll (ev :: evs))
  = ((if bool_decide (collectionId ev.1 = Some coll) then increment ev.1 else 0)
     + net (onCollection coll evs))%Z.
Proof.
  intros H. unfold onCollection. simpl.
  case_bool_decide; [apply net_cons, H | lia].
Qed.

Lemma NoDup_three (a b c : string) : NoDup [a; b; c] → a ≠ b ∧ a ≠ c ∧ b ≠ c.
Proof.
  intros H. apply NoDup_cons in H as [Ha H]. apply NoDup_cons in H as [Hb _].
  set_solver.
Qed.

(** With distinct collection identifiers, a delivery on a tracked collection
    counts in exactly one category. *)
Lemma net_by_category env evs :
  NoDup [ APPWRITE_NOTE_COLLECTION_ID env; APPWRITE_FORM_COLLECTION_ID env;
          APPWRITE_YOUTUBE_COLLECTION_ID env ] →
  Forall (λ ev : delivery,
            isCreate ev.1 || isDelete ev.1 = true ∧ tracked env ev.1) evs →
  net evs
  = (net (onCollection (APPWRITE_NOTE_COLLECTION_ID env) evs)
     + net (onCollection (APPWRITE_FORM_COLLECTION_ID env) evs)
     + net (onCollection (APPWRITE_YOUTUBE_COLLECTION_ID env) evs))%Z.
Proof.
  intros Hids. apply NoDup_three in Hids as (Hnf & Hny & Hfy).
  induction 1 as [|ev evs [Hkind Htracked] _ IH]; [reflexivity|].
  rewrite net_cons, !net_onCollection_cons, IH by exact Hkind.
  unfold tracked in Htracked.
  repeat case_bool_decide; try lia; exfalso;
    destruct Htracked as [?|[?|?]]; congruence.
Qed.

Lemma net_nil : net [] = 0%Z.
Proof. reflexivity. Qed.

Lemma net_onCollection_nil coll : net (onCollection coll []) = 0%Z.
Proof. reflexivity. Qed.

(** When two categories are configured with the same collection, one event
    moves both counters and [total] is no longer their sum. *)
Example shared_identifier_counts_twice :
  applyEvent {| APPWRITE_NOTE_COLLECTION_ID := "docs";
                APPWRITE_FORM_COLLECTION_ID := "docs";
                APPWRITE_YOUTUBE_COLLECTION_ID := "youtube" |}
    "databases.main.collections.docs.documents.create" "Alice" []
  = [ entry "Alice" 1 1 0 1 ].
Proof. reflexivity. Qed.

(** ** The total after an arbitrary sequence

    Without any assumption on the order of the events, each deletion that
    finds [total] at 0 is absorbed; [total] ends up at creations minus
    deletions, raised by the deepest deficit met on the way. *)

Lemma fold_applyEvent_total env u evs : ∀ userStats,
  name userStats = u →
  ∃ userStats',
    foldl (λ l (ev : delivery), applyEvent env ev.1 u l) [userStats] evs = [userStats']
    ∧ name userStats' = u
    ∧ total userStats'
      = foldl (λ t (ev : delivery), Z.max 0 (t + increment ev.1)) (total userStats) evs.
Proof.
  induction evs as [|ev evs IH]; intros userStats Hname; [eauto|].
  simpl. rewrite applyEvent_single by exact Hname.
  apply (IH (clampCounts (addIncrement env ev.1 userStats))). exact Hname.
Qed.

Lemma clamped_walk evs : ∀ t,
  (0 ≤ t)%Z →
  Forall (λ ev : delivery, isCreate ev.1 || isDelete ev.1 = true) evs →
  foldl (λ t (ev : delivery), Z.max 0 (t + increment ev.1)) t evs
  = (t + net evs - Z.min 0 (t + lowest evs))%Z.
Proof.
  induction evs as [|ev evs IH]; intros t Ht Hkinds.
  - rewrite net_nil. simpl. lia.
  - apply Forall_cons in Hkinds as [Hkind Hkinds].
    rewrite net_cons by exact Hkind. simpl. rewrite IH by (try assumption; lia).
    assert (lowest evs ≤ 0)%Z by (destruct evs; simpl; lia).
    lia.
Qed.

Lemma lowest_le_prefix evs :
  Forall (λ ev : delivery, isCreate ev.1 || isDelete ev.1 = true) evs →
  ∀ k : nat, (lowest evs ≤ net (take k evs))%Z.
Proof.
  induction 1 as [|ev evs Hkind _ IH]; intros k.
  - rewrite take_nil, net_nil. reflexivity.
  - destruct k as [|k]; [simpl; rewrite net_nil; lia|].
    change (take (S k) (ev :: evs)) with (ev :: take k evs).
    rewrite net_cons by exact Hkind. specialize (IH k). simpl. lia.
Qed.

Lemma lowest_is_prefix evs :
  Forall (λ ev : delivery, isCreate ev.1 || isDelete ev.1 = true) evs →
  ∃ k : nat, lowest evs = net (take k evs).
Proof.
  induction 1 as [|ev evs Hkind _ [k IH]].
  - exists 0%nat. reflexivity.
  - simpl. destruct (Z.le_ge_cases 0 (increment ev.1 + lowest evs)).
    + exists 0%nat. rewrite Z.min_l by assumption. reflexivity.
    + exists (S k). change (take (S k) (ev :: evs)) with (ev :: take k evs).
      rewrite net_cons by exact Hkind. lia.
Qed.

Lemma total_after_any_sequence env u evs s :
  Forall (λ ev : delivery,
            isCreate ev.1 || isDelete ev.1 = true ∧ attribution ev.2 = Some u) evs →
  evs ≠ [] →
  statsDocument s = Document (Some []) →
  ∃ userStats,
    statsDocument (statsEvents env evs s) = Document (Some [userStats])
    ∧ name userStats = u
    ∧ total userStats = (creates evs - deletes evs - lowest evs)%Z.
Proof.
  intros Hall Hne Hdoc.
  assert (Hkinds : Forall (λ ev : delivery, isCreate ev.1 || isDelete ev.1 = true) evs).
  { eapply Forall_impl; [exact Hall|]. intros ev [H _]. exact H. }
  destruct (fold_applyEvent_total env u evs (freshEntry u) eq_refl)
    as (userStats & Hfold & Hname & Htotal).
  exists userStats. split; [|split; [exact Hname|]].
  - rewrite (statsEvents_fold env u evs s [] Hall Hdoc), <- Hfold.
    destruct evs as [|ev evs]; [contradiction|]. simpl. rewrite applyEvent_nil.
    reflexivity.
  - rewrite Htotal, clamped_walk by (try assumption; simpl; lia).
    assert (lowest evs ≤ 0)%Z by (destruct evs; simpl; lia).
    unfold net. simpl. lia.
Qed.

Example lowest_delete_then_create :
  lowest [ ("databases.main.collections.notes.documents.delete",
            payload (Some "Alice") None None);
           ("databases.main.collections.notes.documents.create",
            payload (Some "Alice") None None) ] = (-1)%Z.
Proof. reflexivity. Qed.

(** * Further properties of the code *)

(** ** Event names *)

Lemma includes_unfold s needle :
  includes s needle
  = String.prefix needle s
    || match s with
       | EmptyString => false
       | String _ rest => includes rest needle
       end.
Proof. destruct s; reflexivity. Qed.

Lemma prefix_append needle post : String.prefix needle (needle ++ post) = true.
Proof.
  induction needle as [|c needle IH]; simpl; [destruct post; reflexivity|].
  destruct (ascii_dec c c); [exact IH | contradiction].
Qed.

Lemma includes_append pre needle post : includes (pre ++ needle ++ post) needle = true.
Proof.
  induction pre as [|c pre IH].
  - change ("" ++ needle ++ post) with (needle ++ post).
    rewrite includes_unfold, prefix_append. reflexivity.
  - change (String c pre ++ needle ++ post) with (String c (pre ++ needle ++ post)).
    rewrite includes_unfold, IH. apply orb_true_r.
Qed.

Lemma includes_dot_cons c s :
  includes (String c s) "." = false → c ≠ "."%char ∧ includes s "." = false.
Proof.
  simpl. intros H. apply orb_false_iff in H as [Hc Hs]. split; [|exact Hs].
  intros ->. simpl in Hc. destruct s; discriminate.
Qed.

Lemma split_no_dot s : includes s "." = false → split "." s = [s].
Proof.
  induction s as [|c s IH]; intros H; [reflexivity|].
  apply includes_dot_cons in H as [Hc Hs]. simpl.
  rewrite (proj2 (Ascii.eqb_neq c ".") Hc), (IH Hs). reflexivity.
Qed.

Lemma split_append_dot a b :
  includes a "." = false → split "." (a ++ String "." b) = a :: split "." b.
Proof.
  induction a as [|c a IH]; intros H; [reflexivity|].
  apply includes_dot_cons in H as [Hc Ha]. simpl.
  rewrite (proj2 (Ascii.eqb_neq c ".") Hc), (IH Ha). reflexivity.
Qed.

Lemma split_eventName databaseId collId rest :
  includes databaseId "." = false →
  includes collId "." = false →
  split "." (eventName databaseId collId rest)
  = "databases" :: databaseId :: "collections" :: collId
    :: "documents" :: split "." rest.
Proof.
  intros Hdb Hcoll.
  change (eventName databaseId collId rest)
    with ("databases" ++ String "."
            (databaseId ++ String "."
               ("collections" ++ String "."
                  (collId ++ String "." ("documents" ++ String "." rest))))).
  rewrite !split_append_dot by (assumption || reflexivity). reflexivity.
Qed.

(** X1.  On an event name of the platform's form whose database and
    collection identifiers contain no dot, line 34 extracts the collection
    identifier. *)
Theorem X1_collectionId_of_event_name databaseId collId rest :
  includes databaseId "." = false →
  includes collId "." = false →
  collectionId (eventName databaseId collId rest) = Some collId.
Proof.
  intros Hdb Hcoll. unfold collectionId.
  rewrite split_eventName by assumption. reflexivity.
Qed.

Lemma X1_witness :
  collectionId (eventName "main" "notes" "d1.create") = Some "notes".
Proof.
  apply X1_collectionId_of_event_name; reflexivity.
Defined.

(** Identifiers may contain dots on the platform; the fourth segment is then
    not the collection. *)
Example dotted_database_id :
  collectionId (eventName "eu.main" "notes" "d1.create") = Some "collections".
Proof. reflexivity. Qed.

Lemma append_assoc (a b c : string) : (a ++ b) ++ c = a ++ b ++ c.
Proof.
  induction a as [|x a IH]; [reflexivity|].
  change (String x ((a ++ b) ++ c) = String x (a ++ b ++ c)). rewrite IH. reflexivity.
Qed.

Lemma includes_eventName_collection databaseId collId rest :
  includes (eventName databaseId collId rest) ("collections." ++ collId) = true.
Proof.
  assert (eventName databaseId collId rest
          = ("databases." ++ databaseId ++ ".") ++ ("collections." ++ collId)
            ++ ".documents." ++ rest) as ->.
  { unfold eventName. rewrite !append_assoc. reflexivity. }
  apply includes_append.
Qed.

Lemma includes_prepend pre s needle :
  includes s needle = true → includes (pre ++ s) needle = true.
Proof.
  intros H. induction pre as [|c pre IH]; [exact H|].
  change (String c pre ++ s) with (String c (pre ++ s)).
  rewrite includes_unfold, IH. apply orb_true_r.
Qed.

Lemma includes_eventName_operation databaseId collId rest needle :
  includes ("." ++ rest) needle = true →
  includes (eventName databaseId collId rest) needle = true.
Proof.
  intros H.
  assert (eventName databaseId collId rest
          = ("databases." ++ databaseId ++ ".collections." ++ collId ++ ".documents")
            ++ "." ++ rest) as ->.
  { unfold eventName. rewrite !append_assoc. reflexivity. }
  apply includes_prepend, H.
Qed.

(** X2.  The filter of lines 98-107 lets through every creation on the notes
    collection: on an event name of the platform's form for that collection,
    with a user name and an abbreviation in the payload, the uploader cache
    task goes on to read the cache document. *)
Theorem X2_note_creations_reach_the_cache env databaseId rest eventData u a s :
  includes ("." ++ rest) ".create" = true →
  truthy (userName eventData) = Some u →
  truthy (abbreviation eventData) = Some a →
  GetDocument UPLOADERS_CACHE_DOCUMENT_ID
  ∈ (settle (updateUploaderCache env
               (eventName databaseId (APPWRITE_NOTE_COLLECTION_ID env) rest)
               eventData) s).2.
Proof.
  intros Hop Hu Ha.
  rewrite updateUploaderCache_settle, includes_eventName_collection,
    (includes_eventName_operation _ _ _ _ Hop), Hu, Ha.
  simpl. destruct (uploadersCacheDocument s) as [|data|data]; [left| |];
    destruct (addUploader u a _) as [[cacheData []]|]; left.
Qed.

Lemma X2_witness :
  GetDocument UPLOADERS_CACHE_DOCUMENT_ID
  ∈ (settle (updateUploaderCache env0
               (eventName "main" (APPWRITE_NOTE_COLLECTION_ID env0) "d1.create")
               (payload (Some "Dan") None (Some "PHY"))) emptyStore).2.
Proof.
  apply (X2_note_creations_reach_the_cache env0 "main" "d1.create"
           (payload (Some "Dan") None (Some "PHY")) "Dan" "PHY" emptyStore);
    reflexivity.
Defined.

(** X3.  The kind of an event is found by searching its name for [.create]:
    a name that contains it anywhere is booked as a creation, [+1] on
    [total], also when the operation at its end is a deletion. *)
Theorem X3_create_is_found_anywhere env pre post userStats :
  isCreate (pre ++ ".create" ++ post) = true
  ∧ isDelete (pre ++ ".create" ++ post) = false
  ∧ total (addIncrement env (pre ++ ".create" ++ post) userStats)
    = (total userStats + 1)%Z.
Proof.
  unfold isCreate, isDelete, addIncrement, increment; simpl.
  rewrite includes_append. repeat split.
Qed.

(** The deletion of a document called [v1.created] counts as a creation. *)
Example delete_booked_as_create :
  applyEvent env0 (eventName "main" "notes" "v1.created.delete") "Alice"
    [ entry "Alice" 1 0 0 1 ]
  = [ entry "Alice" 2 0 0 2 ].
Proof. reflexivity. Qed.

(** ** The calls a task makes *)

(** X4.  Each task calls the client on its own document only, and at most
    twice: it makes no call, or reads the document, or reads it and then
    writes it. *)
Theorem X4_call_discipline env event eventData s :
  callsOn STATS_DOCUMENT_ID (settle (updateTeacherStats env event eventData) s).2
  ∧ callsOn LINKS_UPLOADERS_CACHE_DOCUMENT_ID
      (settle (updateLinksCache event eventData) s).2
  ∧ callsOn UPLOADERS_CACHE_DOCUMENT_ID
      (settle (updateUploaderCache env event eventData) s).2.
Proof.
  rewrite updateTeacherStats_settle, updateLinksCache_settle,
    updateUploaderCache_settle.
  unfold callsOn. repeat split.
  - destruct (negb (includes event ".create") && negb (includes event ".delete"));
      [auto|].
    destruct (attribution eventData); [|auto].
    destruct (statsDocument s) as [|[statsData|]|[statsData|]]; auto.
  - destruct (negb (includes event ".create")); [auto|].
    destruct (truthy (createdBy eventData)); [|auto].
    destruct (linksCacheDocument s) as [|data|data]; [auto| |]; simpl;
      destruct (arrayIncludes _ _); auto.
  - destruct (negb (includes event _)); [auto|].
    destruct (negb (includes event ".create")); [auto|].
    destruct (truthy (userName eventData)) as [u|]; [|auto].
    destruct (truthy (abbreviation eventData)) as [a|]; [|auto].
    destruct (uploadersCacheDocument s) as [|data|data]; [auto| |];
      destruct (addUploader u a _) as [[cacheData []]|]; auto.
Qed.

Lemma rejected_task_leaves_store env event eventData s task :
  task ∈ [ updateTeacherStats env event eventData;
           updateLinksCache event eventData;
           updateUploaderCache env event eventData ] →
  ∀ e s' cs,
    settle task s = (rejected e, s', cs) →
    s' = s ∧ (∀ doc, UpdateDocument doc ∈ cs → e = UpdateRefused doc).
Proof.
  intros Hin e s' cs.
  assert (Hget : ∀ doc doc' x, UpdateDocument doc ∈ [GetDocument doc'] → x = UpdateRefused doc).
  { intros doc doc' x H. apply list_elem_of_singleton in H. discriminate. }
  assert (Hupd : ∀ doc doc',
            UpdateDocument doc ∈ [GetDocument doc'; UpdateDocument doc'] →
            UpdateRefused doc' = UpdateRefused doc).
  { intros doc doc' H. apply elem_of_cons in H as [H|H]; [discriminate|].
    apply list_elem_of_singleton in H. congruence. }
  apply elem_of_cons in Hin as [->|Hin];
    [|apply elem_of_cons in Hin as [->|Hin];
      [|apply list_elem_of_singleton in Hin as ->]].
  - rewrite updateTeacherStats_settle.
    destruct (negb (includes event ".create") && negb (includes event ".delete"));
      [discriminate|].
    destruct (attribution eventData); [|discriminate].
    destruct (statsDocument s) as [|[statsData|]|[statsData|]]; intros [= <- <- <-];
      (split; [reflexivity|]); intros doc; (apply Hget || apply Hupd).
  - rewrite updateLinksCache_settle.
    destruct (negb (includes event ".create")); [discriminate|].
    destruct (truthy (createdBy eventData)); [|discriminate].
    destruct (linksCacheDocument s) as [|data|data]; simpl.
    + intros [= <- <- <-]. split; [reflexivity|]. intros doc. apply Hget.
    + destruct (arrayIncludes _ _); discriminate.
    + destruct (arrayIncludes _ _); [discriminate|].
      intros [= <- <- <-]. split; [reflexivity|]. intros doc. apply Hupd.
  - rewrite updateUploaderCache_settle.
    destruct (negb (includes event _)); [discriminate|].
    destruct (negb (includes event ".create")); [discriminate|].
    destruct (truthy (userName eventData)) as [u|]; [|discriminate].
    destruct (truthy (abbreviation eventData)) as [a|]; [|discriminate].
    destruct (uploadersCacheDocument s) as [|data|data].
    + intros [= <- <- <-]. split; [reflexivity|]. intros doc. apply Hget.
    + destruct (addUploader u a _) as [[cacheData []]|]; try discriminate.
      intros [= <- <- <-]. split; [reflexivity|]. intros doc. apply Hget.
    + destruct (addUploader u a _) as [[cacheData []]|]; try discriminate;
        intros [= <- <- <-]; (split; [reflexivity|]); intros doc;
        (apply Hget || apply Hupd).
Qed.

(** X5.  A task that fails has changed nothing: when any of the three tasks
    is rejected, the store is the one it started from, and if the task had
    got as far as calling [updateDocument], the failure is the refusal of
    that call. *)
Theorem X5_rejected_task_has_written_nothing env event eventData s task :
  task ∈ [ updateTeacherStats env event eventData;
           updateLinksCache event eventData;
           updateUploaderCache env event eventData ] →
  ∀ e s' cs,
    settle task s = (rejected e, s', cs) →
    s' = s ∧ (∀ doc, UpdateDocument doc ∈ cs → e = UpdateRefused doc).
Proof. apply rejected_task_leaves_store. Qed.

Lemma X5_witness :
  let s := statsRef.(writeSlot) (ReadOnly (Some [ entry "Alice" 1 0 0 1 ])) emptyStore in
  s = s
  ∧ (∀ doc,
       UpdateDocument doc
       ∈ [GetDocument STATS_DOCUMENT_ID; UpdateDocument STATS_DOCUMENT_ID] →
       UpdateRefused STATS_DOCUMENT_ID = UpdateRefused doc).
Proof.
  intros s.
  apply (X5_rejected_task_has_written_nothing env0
           "databases.main.collections.notes.documents.d1.create"
           (payload (Some "Alice") None None) s
           (updateTeacherStats env0 "databases.main.collections.notes.documents.d1.create"
              (payload (Some "Alice") None None))).
  - left.
  - reflexivity.
Defined.

(** A refused update: the task is rejected after both calls, and the
    document is as before. *)
Example refused_update :
  settle (updateLinksCache "databases.main.collections.links.documents.d1.create"
            (payload None (Some "Alice") None))
         (linksRef.(writeSlot) (ReadOnly (Some {[ "uploaders" := ["Carol"] ]})) emptyStore)
  = (rejected (UpdateRefused LINKS_UPLOADERS_CACHE_DOCUMENT_ID),
     linksRef.(writeSlot) (ReadOnly (Some {[ "uploaders" := ["Carol"] ]})) emptyStore,
     [GetDocument LINKS_UPLOADERS_CACHE_DOCUMENT_ID;
      UpdateDocument LINKS_UPLOADERS_CACHE_DOCUMENT_ID]).
Proof. vm_compute. reflexivity. Qed.

(** ** The three tasks side by side *)

Lemma updateTeacherStats_frame env event eventData s :
  linksCacheDocument (storeAfter (updateTeacherStats env event eventData) s)
  = linksCacheDocument s
  ∧ uploadersCacheDocument (storeAfter (updateTeacherStats env event eventData) s)
    = uploadersCacheDocument s.
Proof.
  unfold storeAfter. rewrite updateTeacherStats_settle.
  destruct (negb (includes event ".create") && negb (includes event ".delete"));
    [split; reflexivity|].
  destruct (attribution eventData); [|split; reflexivity].
  destruct (statsDocument s) as [|[statsData|]|[statsData|]]; split; reflexivity.
Qed.

Lemma updateLinksCache_frame event eventData s :
  statsDocument (storeAfter (updateLinksCache event eventData) s) = statsDocument s
  ∧ uploadersCacheDocument (storeAfter (updateLinksCache event eventData) s)
    = uploadersCacheDocument s.
Proof.
  unfold storeAfter. rewrite updateLinksCache_settle.
  destruct (negb (includes event ".create")); [split; reflexivity|].
  destruct (truthy (createdBy eventData)); [|split; reflexivity].
  destruct (linksCacheDocument s) as [|data|data]; [split; reflexivity| |]; simpl;
    destruct (arrayIncludes _ _); split; reflexivity.
Qed.

Lemma updateUploaderCache_frame env event eventData s :
  statsDocument (storeAfter (updateUploaderCache env event eventData) s)
  = statsDocument s
  ∧ linksCacheDocument (storeAfter (updateUploaderCache env event eventData) s)
    = linksCacheDocument s.
Proof.
  unfold storeAfter. rewrite updateUploaderCache_settle.
  destruct (negb (includes event _)); [split; reflexivity|].
  destruct (negb (includes event ".create")); [split; reflexivity|].
  destruct (truthy (userName eventData)) as [u|]; [|split; reflexivity].
  destruct (truthy (abbreviation eventData)) as [a|]; [|split; reflexivity].
  destruct (uploadersCacheDocument s) as [|data|data]; [split; reflexivity| |];
    destruct (addUploader u a _) as [[cacheData []]|]; split; reflexivity.
Qed.

(** What a task makes of its document depends on that document alone. *)
Lemma updateLinksCache_local event eventData s1 s2 :
  linksCacheDocument s1 = linksCacheDocument s2 →
  linksCacheDocument (storeAfter (updateLinksCache event eventData) s1)
  = linksCacheDocument (storeAfter (updateLinksCache event eventData) s2).
Proof.
  intros H. unfold storeAfter. rewrite !updateLinksCache_settle.
  destruct (negb (includes event ".create")); [exact H|].
  destruct (truthy (createdBy eventData)); [|exact H].
  rewrite <- H.
  destruct (linksCacheDocument s1) as [|data|data] eqn:E; [simpl; congruence| |];
    simpl; destruct (arrayIncludes _ _); simpl; congruence.
Qed.

Lemma updateUploaderCache_local env event eventData s1 s2 :
  uploadersCacheDocument s1 = uploadersCacheDocument s2 →
  uploadersCacheDocument (storeAfter (updateUploaderCache env event eventData) s1)
  = uploadersCacheDocument (storeAfter (updateUploaderCache env event eventData) s2).
Proof.
  intros H. unfold storeAfter. rewrite !updateUploaderCache_settle.
  destruct (negb (includes event _)); [exact H|].
  destruct (negb (includes event ".create")); [exact H|].
  destruct (truthy (userName eventData)) as [u|]; [|exact H].
  destruct (truthy (abbreviation eventData)) as [a|]; [|exact H].
  rewrite <- H.
  destruct (uploadersCacheDocument s1) as [|data|data] eqn:E; [simpl; congruence| |];
    destruct (addUploader u a _) as [[cacheData []]|]; simpl; congruence.
Qed.

Lemma allSettled_three t1 t2 t3 s :
  (allSettled [t1; t2; t3] s).2
  = storeAfter t3 (storeAfter t2 (storeAfter t1 s)).
Proof.
  unfold storeAfter. simpl.
  destruct (settle t1 s) as [[r1 s1] c1]. simpl.
  destruct (settle t2 s1) as [[r2 s2] c2]. simpl.
  destruct (settle t3 s2) as [[r3 s3] c3]. reflexivity.
Qed.

Lemma dispatch_store tasks s : (dispatch tasks s).2 = (allSettled tasks s).2.
Proof. unfold dispatch. destruct (allSettled tasks s). reflexivity. Qed.

(** X6.  The three tasks do not interfere: after the handler has run, each
    aggregate document is what its own task, run alone on the incoming store,
    makes of it, whether or not the other two tasks succeed. *)
Theorem X6_tasks_are_independent env event eventData s :
  let s' := (handler (Normal tt) env
               {| x_appwrite_event := Some event; body := eventData |} s).2 in
  statsDocument s'
  = statsDocument (storeAfter (updateTeacherStats env event eventData) s)
  ∧ linksCacheDocument s'
    = linksCacheDocument (storeAfter (updateLinksCache event eventData) s)
  ∧ uploadersCacheDocument s'
    = uploadersCacheDocument (storeAfter (updateUploaderCache env event eventData) s).
Proof.
  simpl. rewrite dispatch_store, allSettled_three. simpl.
  set (s1 := storeAfter (updateTeacherStats env event eventData) s).
  set (s2 := storeAfter (updateLinksCache event eventData) s1).
  destruct (updateTeacherStats_frame env event eventData s) as [HL1 HU1].
  destruct (updateLinksCache_frame event eventData s1) as [HS2 HU2].
  destruct (updateUploaderCache_frame env event eventData s2) as [HS3 HL3].
  fold s1 in HL1, HU1. fold s2 in HS2, HU2, HS3, HL3.
  repeat split.
  - rewrite HS3, HS2. reflexivity.
  - rewrite HL3. apply updateLinksCache_local, HL1.
  - apply updateUploaderCache_local. rewrite HU2. exact HU1.
Qed.

(** X7.  When the request carries no [x-appwrite-event] header, each task
    fails on its first [event.includes]: the three failures are reported,
    the store is untouched, and the response is still the success
    response. *)
Theorem X7_missing_event_header env eventData s :
  let reason :=
    TypeError "Cannot read properties of undefined (reading 'includes')" in
  handler (Normal tt) env {| x_appwrite_event := None; body := eventData |} s
  = (Responded processed, [ (1%nat, reason); (2%nat, reason); (3%nat, reason) ], s).
Proof. reflexivity. Qed.

Lemma caches_skip_non_creations env event eventData s :
  includes event ".create" = false →
  settle (updateLinksCache event eventData) s = (fulfilled, s, [])
  ∧ settle (updateUploaderCache env event eventData) s = (fulfilled, s, []).
Proof.
  intros H. rewrite updateLinksCache_settle, updateUploaderCache_settle, H. simpl.
  split; [reflexivity|]. destruct (negb (includes event _)); reflexivity.
Qed.

(** X8.  The caches are only ever added to on creations: for an event whose
    name does not contain [.create] (a deletion, an update), the links cache
    task and the uploader cache task make no call and leave the store as it
    is. *)
Theorem X8_caches_ignore_non_creations env event eventData s :
  includes event ".create" = false →
  settle (updateLinksCache event eventData) s = (fulfilled, s, [])
  ∧ settle (updateUploaderCache env event eventData) s = (fulfilled, s, []).
Proof. apply caches_skip_non_creations. Qed.

Lemma X8_witness :
  settle (updateLinksCache "databases.main.collections.notes.documents.d1.delete"
            (payload (Some "Dan") (Some "Dan") (Some "PHY"))) emptyStore
  = (fulfilled, emptyStore, [])
  ∧ settle (updateUploaderCache env0
              "databases.main.collections.notes.documents.d1.delete"
              (payload (Some "Dan") (Some "Dan") (Some "PHY"))) emptyStore
    = (fulfilled, emptyStore, []).
Proof.
  apply (X8_caches_ignore_non_creations env0
           "databases.main.collections.notes.documents.d1.delete").
  reflexivity.
Defined.

(** X9.  An event that is neither a creation nor a deletion (an update)
    changes nothing: the handler leaves the whole store as it is, reports
    no failure and answers with the success response. *)
Theorem X9_updates_change_nothing env event eventData s :
  includes event ".create" = false →
  includes event ".delete" = false →
  handler (Normal tt) env {| x_appwrite_event := Some event; body := eventData |} s
  = (Responded processed, [], s).
Proof.
  intros Hc Hd.
  destruct (caches_skip_non_creations env event eventData s Hc) as [HL HU].
  assert (HS : settle (updateTeacherStats env event eventData) s = (fulfilled, s, [])).
  { rewrite updateTeacherStats_settle, Hc, Hd. reflexivity. }
  unfold handler, dispatch. simpl. rewrite HS, HL, HU. reflexivity.
Qed.

Lemma X9_witness :
  handler (Normal tt) env0
    {| x_appwrite_event := Some "databases.main.collections.notes.documents.d1.update";
       body := payload (Some "Dan") (Some "Dan") (Some "PHY") |} emptyStore
  = (Responded processed, [], emptyStore).
Proof.
  apply X9_updates_change_nothing; reflexivity.
Defined.

Lemma reportFailures_spec results : ∀ k i e,
  (i, e) ∈ reportFailures k results
  ↔ ∃ j, i = S (k + j) ∧ results !! j = Some (rejected e).
Proof.
  induction results as [|[|reason] results IH]; intros k i e; simpl.
  - split; [intros H; inversion H | intros (j & _ & H); discriminate].
  - rewrite IH. split.
    + intros (j & -> & H). exists (S j). split; [lia | exact H].
    + intros ([|j] & -> & H); [discriminate|]. exists j. split; [lia | exact H].
  - rewrite elem_of_cons, IH. split.
    + intros [[= -> ->] | (j & -> & H)].
      * exists 0%nat. split; [lia | reflexivity].
      * exists (S j). split; [lia | exact H].
    + intros ([|j] & -> & H).
      * left. simpl in H. injection H as ->. f_equal. lia.
      * right. exists j. split; [lia | exact H].
Qed.

(** X10.  The failures passed to [error] are exactly the rejected tasks:
    task number [i + 1] is reported with reason [e] if and only if the
    result at position [i] is a rejection with that reason. *)
Theorem X10_reported_failures_are_the_rejections results i e :
  (S i, e) ∈ reportFailures 0 results ↔ results !! i = Some (rejected e).
Proof.
  rewrite reportFailures_spec. split.
  - intros (j & Hj & H). simpl in Hj. injection Hj as ->. exact H.
  - intros H. exists i. split; [reflexivity | exact H].
Qed.

(** ** The entries of the statistics document *)

Lemma locate_fst userName statsData :
  (locate userName statsData).1
  = if decide (userName ∈ name <$> statsData) then statsData
    else (statsData ++ [freshEntry userName])%list.
Proof.
  unfold locate.
  destruct (list_find (λ u, name u = userName) statsData) as [[i u]|] eqn:E; simpl.
  - apply list_find_Some in E as (Hi & Hu & _).
    rewrite decide_True; [reflexivity|].
    apply list_elem_of_fmap. exists u. split; [congruence|].
    eapply list_elem_of_lookup_2, Hi.
  - apply list_find_None in E. rewrite decide_False; [reflexivity|].
    intros Hin. apply list_elem_of_fmap in Hin as (u & Hu & Hin).
    rewrite Forall_forall in E. apply (E u Hin). congruence.
Qed.

Lemma mutateStats_alter env event userName statsData :
  mutateStats env event userName statsData
  = alter (λ userStats, clampCounts (addIncrement env event userStats))
      (locate userName statsData).2 (locate userName statsData).1.
Proof. unfold mutateStats. destruct (locate userName statsData). reflexivity. Qed.

Lemma fmap_name_alter (f : StatsEntry → StatsEntry) (l : list StatsEntry) (i : nat) :
  (∀ u, name (f u) = name u) → name <$> alter f i l = name <$> l.
Proof.
  intros Hf. revert i. induction l as [|y l IH]; intros [|i]; simpl; try reflexivity.
  - rewrite Hf. reflexivity.
  - f_equal. apply IH.
Qed.

Lemma names_mutateStats env event userName statsData :
  name <$> mutateStats env event userName statsData
  = name <$> (locate userName statsData).1.
Proof. rewrite mutateStats_alter. apply fmap_name_alter. reflexivity. Qed.

Lemma names_applyEvent env event userName statsData :
  name <$> applyEvent env event userName statsData
  ≡ₚ if decide (userName ∈ name <$> statsData) then name <$> statsData
     else (name <$> statsData) ++ [userName].
Proof.
  unfold applyEvent. rewrite sort_perm, names_mutateStats, locate_fst.
  case_decide; [reflexivity|]. rewrite fmap_app. reflexivity.
Qed.

(** X11.  A document that has one entry per name keeps one entry per name:
    the names after the task are the names before, with the user's name
    added when it was not there; no entry is ever removed. *)
Theorem X11_one_entry_per_name env event userName statsData :
  NoDup (name <$> statsData) →
  NoDup (name <$> applyEvent env event userName statsData)
  ∧ name <$> applyEvent env event userName statsData
    ≡ₚ if decide (userName ∈ name <$> statsData) then name <$> statsData
       else (name <$> statsData) ++ [userName].
Proof.
  intros Hnd. split; [|apply names_applyEvent].
  rewrite names_applyEvent. case_decide; [exact Hnd|].
  apply NoDup_app. split; [exact Hnd|]. split; [|apply NoDup_singleton].
  intros x Hx Hx'. apply list_elem_of_singleton in Hx' as ->. contradiction.
Qed.

Lemma X11_witness :
  NoDup (name <$> applyEvent env0 "databases.main.collections.notes.documents.create"
                    "Bob" [ entry "Alice" 1 0 0 1 ])
  ∧ name <$> applyEvent env0 "databases.main.collections.notes.documents.create"
               "Bob" [ entry "Alice" 1 0 0 1 ]
    ≡ₚ if decide ("Bob" ∈ name <$> [ entry "Alice" 1 0 0 1 ])
       then name <$> [ entry "Alice" 1 0 0 1 ]
       else (name <$> [ entry "Alice" 1 0 0 1 ]) ++ ["Bob"].
Proof.
  apply X11_one_entry_per_name. apply (bool_decide_unpack _). vm_compute. exact I.
Defined.

Lemma filter_alter_outside {A} (Q : A → Prop) `{∀ x, Decision (Q x)}
    (f : A → A) (l : list A) i x :
  l !! i = Some x → ¬ Q x → ¬ Q (f x) → filter Q (alter f i l) = filter Q l.
Proof.
  revert i. induction l as [|y l IH]; intros [|i] Hi Hx Hfx; simpl in Hi;
    try discriminate.
  - injection Hi as ->. change (alter f 0%nat (x :: l)) with (f x :: l).
    rewrite !filter_cons, !decide_False by assumption. reflexivity.
  - change (alter f (S i) (y :: l)) with (y :: alter f i l).
    rewrite !filter_cons, (IH i) by assumption. reflexivity.
Qed.

(** X12.  The entries of the other users are not touched: those whose name
    differs from the user's are, after the task, the same entries as
    before (possibly in another order). *)
Theorem X12_other_entries_untouched env event (userName : string)
    (statsData : list StatsEntry) :
  filter (λ u, name u ≠ userName) (applyEvent env event userName statsData)
  ≡ₚ filter (λ u, name u ≠ userName) statsData.
Proof.
  unfold applyEvent. rewrite sort_perm, mutateStats_alter.
  destruct (locate_lookup userName statsData) as (userStats & Hlook & Hname).
  rewrite (filter_alter_outside _ _ _ _ userStats Hlook) by (simpl; congruence).
  rewrite locate_fst. case_decide; [reflexivity|].
  rewrite filter_app, filter_cons, decide_False by (simpl; congruence).
  rewrite filter_nil, app_nil_r. reflexivity.
Qed.

Lemma book_keeps_within env event userStats :
  NoDup [ APPWRITE_NOTE_COLLECTION_ID env; APPWRITE_FORM_COLLECTION_ID env;
          APPWRITE_YOUTUBE_COLLECTION_ID env ] →
  tracked env event →
  nonNegative userStats ∧ withinCategories userStats →
  nonNegative (clampCounts (addIncrement env event userStats))
  ∧ withinCategories (clampCounts (addIncrement env event userStats)).
Proof.
  intros Hids Htracked [Hnn Hw]. split; [apply clampCounts_nonNegative|].
  apply NoDup_three in Hids as (Hnf & Hny & Hfy).
  unfold withinCategories, nonNegative, tracked, clampCounts, addIncrement, increment in *.
  simpl. destruct (includes event ".create");
    repeat case_bool_decide; try lia; exfalso;
    destruct Htracked as [?|[?|?]]; congruence.
Qed.

(** X13.  With three distinct collection identifiers, an event on a tracked
    collection keeps every entry within its categories: if all counters are
    at least 0 and no [total] exceeds the sum of the three category
    counters before the task, the same holds of the document it leaves. *)
Theorem X13_total_stays_within_categories env event eventData s statsData statsData' :
  NoDup [ APPWRITE_NOTE_COLLECTION_ID env; APPWRITE_FORM_COLLECTION_ID env;
          APPWRITE_YOUTUBE_COLLECTION_ID env ] →
  tracked env event →
  statsDocument s = Document (Some statsData) →
  Forall (λ u, nonNegative u ∧ withinCategories u) statsData →
  statsDocument (storeAfter (updateTeacherStats env event eventData) s)
  = Document (Some statsData') →
  Forall (λ u, nonNegative u ∧ withinCategories u) statsData'.
Proof.
  intros Hids Htracked Hdoc Hall. unfold storeAfter.
  rewrite updateTeacherStats_settle, Hdoc.
  destruct (negb (includes event ".create") && negb (includes event ".delete")).
  { simpl. rewrite Hdoc. intros [= <-]. exact Hall. }
  destruct (attribution eventData) as [userName|].
  2: { simpl. rewrite Hdoc. intros [= <-]. exact Hall. }
  simpl. intros [= <-]. unfold applyEvent. apply sort_Forall.
  rewrite mutateStats_alter, locate_fst.
  apply Forall_alter.
  - case_decide; [exact Hall|]. apply Forall_app. split; [exact Hall|].
    repeat constructor; simpl; try lia. unfold withinCategories. simpl. lia.
  - intros u _ Hu. apply book_keeps_within; assumption.
Qed.

Lemma X13_witness :
  Forall (λ u, nonNegative u ∧ withinCategories u) [ entry "Alice" 1 0 0 0 ].
Proof.
  apply (X13_total_stays_within_categories env0
           "databases.main.collections.forms.documents.d2.delete"
           (payload (Some "Alice") None None)
           (statsRef.(writeSlot) (Document (Some [ entry "Alice" 1 0 0 1 ])) emptyStore)
           [ entry "Alice" 1 0 0 1 ]).
  - apply (bool_decide_unpack _). vm_compute. exact I.
  - right. left. reflexivity.
  - reflexivity.
  - repeat constructor; simpl; try lia. unfold withinCategories. simpl. lia.
  - reflexivity.
Defined.

(** An event on a collection that is not tracked can push [total] above the
    sum of the categories. *)
Example untracked_create_exceeds :
  applyEvent env0 "databases.main.collections.links.documents.d3.create" "Alice" []
  = [ entry "Alice" 0 0 0 1 ].
Proof. reflexivity. Qed.

(** ** A creation followed by its deletion *)

Lemma book_id env event (userName : string) (l : list StatsEntry) :
  Forall (λ u, name u ≠ userName) l → book env event userName <$> l = l.
Proof.
  induction 1 as [|y l Hy _ IH]; [reflexivity|].
  rewrite fmap_cons, IH. unfold book. rewrite decide_False by exact Hy. reflexivity.
Qed.

Lemma alter_book env event (userName : string) (l : list StatsEntry) : ∀ i userStats,
  l !! i = Some userStats →
  name userStats = userName →
  NoDup (name <$> l) →
  alter (λ u, clampCounts (addIncrement env event u)) i l
  = book env event userName <$> l.
Proof.
  induction l as [|y l IH]; intros [|i] userStats Hi Hname Hnd; simpl in Hi;
    try discriminate; rewrite fmap_cons in Hnd; apply NoDup_cons in Hnd as [Hy Hnd].
  - injection Hi as ->.
    change (alter ?f 0%nat (userStats :: l)) with (f userStats :: l).
    rewrite fmap_cons, book_id.
    + unfold book. rewrite decide_True by exact Hname. reflexivity.
    + apply Forall_forall. intros u Hu Heq. apply Hy.
      apply list_elem_of_fmap. exists u. split; [congruence | exact Hu].
  - change (alter ?f (S i) (y :: l)) with (y :: alter f i l).
    rewrite fmap_cons, (IH i userStats Hi Hname Hnd).
    unfold book at 2. rewrite decide_False; [reflexivity|].
    intros Heq. apply Hy. apply list_elem_of_fmap. exists userStats.
    split; [congruence | eapply list_elem_of_lookup_2, Hi].
Qed.

Lemma NoDup_names_locate userName statsData :
  NoDup (name <$> statsData) → NoDup (name <$> (locate userName statsData).1).
Proof.
  intros Hnd. rewrite locate_fst. case_decide; [exact Hnd|].
  rewrite fmap_app. apply NoDup_app. split; [exact Hnd|].
  split; [|apply NoDup_singleton].
  intros x Hx Hx'. apply list_elem_of_singleton in Hx'. simpl in Hx'. subst.
  contradiction.
Qed.

(** With one entry per name, the array before sorting is the located array
    with the user's entry booked. *)
Lemma mutateStats_book env event userName statsData :
  NoDup (name <$> statsData) →
  mutateStats env event userName statsData
  = book env event userName <$> (locate userName statsData).1.
Proof.
  intros Hnd. rewrite mutateStats_alter.
  destruct (locate_lookup userName statsData) as (userStats & Hlook & Hname).
  apply (alter_book env event userName _ _ userStats Hlook Hname).
  apply NoDup_names_locate, Hnd.
Qed.

Lemma book_create_delete env create delete userName userStats :
  isCreate create = true →
  isDelete delete = true →
  collectionId create = collectionId delete →
  nonNegative userStats →
  book env delete userName (book env create userName userStats) = userStats.
Proof.
  intros Hc Hd Hcoll (Hn & Hf & Hy & Ht). unfold book.
  destruct (decide (name userStats = userName)) as [Hname|Hname].
  - rewrite decide_True by exact Hname.
    unfold clampCounts, addIncrement. simpl.
    rewrite (increment_create _ Hc), (increment_delete _ Hd), Hcoll.
    destruct userStats; simpl in *.
    repeat case_bool_decide; f_equal; lia.
  - rewrite decide_False by exact Hname. reflexivity.
Qed.

Lemma create_then_delete_restores env create delete userName statsData :
  isCreate create = true →
  isDelete delete = true →
  collectionId create = collectionId delete →
  NoDup (name <$> statsData) →
  Forall nonNegative statsData →
  applyEvent env delete userName (applyEvent env create userName statsData)
  ≡ₚ if decide (userName ∈ name <$> statsData) then statsData
     else (statsData ++ [freshEntry userName])%list.
Proof.
  intros Hc Hd Hcoll Hnd Hnn.
  rewrite <- locate_fst.
  set (l0 := (locate userName statsData).1).
  assert (Hnd0 : NoDup (name <$> l0)) by apply NoDup_names_locate, Hnd.
  assert (Hnn0 : Forall nonNegative l0).
  { unfold l0. rewrite locate_fst. case_decide; [exact Hnn|].
    apply Forall_app. split; [exact Hnn|]. repeat constructor; simpl; lia. }
  assert (Hin0 : userName ∈ name <$> l0).
  { destruct (locate_lookup userName statsData) as (userStats & Hlook & Hname).
    apply list_elem_of_fmap. exists userStats.
    split; [congruence | eapply list_elem_of_lookup_2, Hlook]. }
  set (l1 := applyEvent env create userName statsData).
  assert (H1 : l1 ≡ₚ book env create userName <$> l0).
  { unfold l1, applyEvent. rewrite sort_perm, mutateStats_book by exact Hnd.
    reflexivity. }
  assert (Hnames1 : name <$> l1 ≡ₚ name <$> l0).
  { rewrite H1, <- list_fmap_compose.
    assert (name ∘ book env create userName <$> l0 = name <$> l0) as ->;
      [|reflexivity].
    apply list_fmap_ext. intros i u _. unfold book. simpl. case_decide; reflexivity. }
  assert (Hnd1 : NoDup (name <$> l1)) by (rewrite Hnames1; exact Hnd0).
  assert (Hin1 : userName ∈ name <$> l1) by (rewrite Hnames1; exact Hin0).
  unfold applyEvent at 1. fold l1.
  rewrite sort_perm, mutateStats_book by exact Hnd1.
  rewrite locate_fst, decide_True by exact Hin1.
  rewrite H1, <- list_fmap_compose.
  assert (book env delete userName ∘ book env create userName <$> l0 = l0) as ->;
    [|reflexivity].
  rewrite <- (list_fmap_id l0) at 2.
  apply Forall_fmap_ext_1. eapply Forall_impl; [exact Hnn0|].
  intros u Hu. simpl. apply book_create_delete; assumption.
Qed.

(** X14.  A creation followed by the deletion on the same collection, for the
    same user, gives back the document it started from, up to the order of
    the entries and with a zero entry for the user if there was none
    (given one entry per name and no negative counter). *)
Theorem X14_create_then_delete_restores env create delete userName statsData :
  isCreate create = true →
  isDelete delete = true →
  collectionId create = collectionId delete →
  NoDup (name <$> statsData) →
  Forall nonNegative statsData →
  applyEvent env delete userName (applyEvent env create userName statsData)
  ≡ₚ if decide (userName ∈ name <$> statsData) then statsData
     else (statsData ++ [freshEntry userName])%list.
Proof. apply create_then_delete_restores. Qed.

Lemma X14_witness :
  applyEvent env0 "databases.main.collections.notes.documents.d1.delete" "Alice"
    (applyEvent env0 "databases.main.collections.notes.documents.d1.create" "Alice"
       [ entry "Bob" 0 2 0 2; entry "Alice" 1 0 0 1 ])
  ≡ₚ if decide ("Alice" ∈ name <$> [ entry "Bob" 0 2 0 2; entry "Alice" 1 0 0 1 ])
     then [ entry "Bob" 0 2 0 2; entry "Alice" 1 0 0 1 ]
     else ([ entry "Bob" 0 2 0 2; entry "Alice" 1 0 0 1 ]
           ++ [freshEntry "Alice"])%list.
Proof.
  apply X14_create_then_delete_restores.
  - reflexivity.
  - reflexivity.
  - reflexivity.
  - apply (bool_decide_unpack _). vm_compute. exact I.
  - repeat constructor; simpl; lia.
Defined.

(** In the other order the document is not restored. *)
Example delete_then_create_does_not_restore :
  applyEvent env0 "databases.main.collections.notes.documents.d1.create" "Alice"
    (applyEvent env0 "databases.main.collections.notes.documents.d1.delete" "Alice"
       [ entry "Alice" 0 0 0 0 ])
  = [ entry "Alice" 1 0 0 1 ].
Proof. reflexivity. Qed.

(** ** The order of the cached names *)

Lemma codeUnitRank_inj (x y : ascii) : codeUnitRank x = codeUnitRank y → x = y.
Proof.
  unfold codeUnitRank. intros H.
  pose proof (N_ascii_bounded x) as Hx. pose proof (N_ascii_bounded y) as Hy.
  rewrite <- (ascii_N_embedding x), <- (ascii_N_embedding y). f_equal.
  destruct (N.ltb_spec (N_of_ascii x) 238), (N.ltb_spec (N_of_ascii x) 240),
    (N.ltb_spec (N_of_ascii y) 238), (N.ltb_spec (N_of_ascii y) 240); lia.
Qed.

Lemma codeUnitCompare_eq : ∀ a b : string, codeUnitCompare a b = Eq → a = b.
Proof.
  induction a as [|x a IH]; intros [|y b]; simpl; try congruence.
  destruct (N.compare_spec (codeUnitRank x) (codeUnitRank y)) as [E| |];
    try discriminate.
  intros H. apply codeUnitRank_inj in E as ->. rewrite (IH b H). reflexivity.
Qed.

Lemma codeUnitCompare_antisym : ∀ a b : string,
  codeUnitCompare a b = CompOpp (codeUnitCompare b a).
Proof.
  induction a as [|x a IH]; intros [|y b]; simpl; try reflexivity.
  rewrite (N.compare_antisym (codeUnitRank x) (codeUnitRank y)), (IH b).
  destruct (N.compare (codeUnitRank x) (codeUnitRank y)); reflexivity.
Qed.

Lemma codeUnitCompare_Lt_trans : ∀ a b c : string,
  codeUnitCompare a b = Lt → codeUnitCompare b c = Lt → codeUnitCompare a c = Lt.
Proof.
  induction a as [|x a IH]; intros [|y b] [|z c]; simpl; try congruence.
  destruct (N.compare_spec (codeUnitRank x) (codeUnitRank y)) as [Exy|Exy|Exy];
    try discriminate;
    destruct (N.compare_spec (codeUnitRank y) (codeUnitRank z)) as [Eyz|Eyz|Eyz];
    try discriminate; intros Hab Hbc.
  - rewrite Exy, Eyz, N.compare_refl. apply (IH b c Hab Hbc).
  - rewrite Exy. apply N.compare_lt_iff in Eyz. rewrite Eyz. reflexivity.
  - rewrite <- Eyz. apply N.compare_lt_iff in Exy. rewrite Exy. reflexivity.
  - assert (codeUnitRank x < codeUnitRank z)%N as H by lia.
    apply N.compare_lt_iff in H. rewrite H. reflexivity.
Qed.

Lemma defaultCompare_le x y :
  (defaultCompare x y <=? 0)%Z = true → x = y ∨ codeUnitCompare x y = Lt.
Proof.
  unfold defaultCompare. destruct (codeUnitCompare x y) eqn:E; simpl; intros H.
  - left. apply codeUnitCompare_eq, E.
  - right. reflexivity.
  - discriminate.
Qed.

Lemma defaultCompare_gt x y :
  (defaultCompare x y <=? 0)%Z = false → codeUnitCompare y x = Lt.
Proof.
  unfold defaultCompare. rewrite (codeUnitCompare_antisym x y).
  destruct (codeUnitCompare y x); simpl; intros H; try discriminate. reflexivity.
Qed.

Lemma sortInsert_strictlyAscending x l :
  strictlyAscending l → x ∉ l → strictlyAscending (sortInsert defaultCompare x l).
Proof.
  unfold strictlyAscending. induction 1 as [|y l Hl IH Hy]; intros Hx; simpl.
  - repeat constructor.
  - apply not_elem_of_cons in Hx as [Hxy Hx].
    destruct (defaultCompare x y <=? 0)%Z eqn:E.
    + apply defaultCompare_le in E as [E|E]; [contradiction|].
      constructor; [constructor; assumption|].
      constructor; [exact E|].
      eapply Forall_impl; [exact Hy|]. intros z Hz.
      apply (codeUnitCompare_Lt_trans x y z E Hz).
    + apply defaultCompare_gt in E.
      constructor; [apply IH, Hx|].
      rewrite sortInsert_perm. constructor; assumption.
Qed.

(** Sorting an array that has no duplicates gives a strictly ascending
    array. *)
Lemma sort_strictlyAscending l :
  NoDup l → strictlyAscending (sort defaultCompare l).
Proof.
  induction 1 as [|x l Hx Hnd IH]; simpl; [constructor|].
  apply sortInsert_strictlyAscending; [exact IH|]. rewrite sort_perm. exact Hx.
Qed.

Lemma strictlyAscending_NoDup l : strictlyAscending l → NoDup l.
Proof.
  induction 1 as [|x l Hl IH Hx]; constructor; [|exact IH].
  intros Hin. rewrite Forall_forall in Hx. specialize (Hx x Hin).
  assert (codeUnitCompare x x = Eq) as E; [|congruence].
  pose proof (codeUnitCompare_antisym x x) as Ha.
  destruct (codeUnitCompare x x); simpl in Ha; congruence.
Qed.

Lemma withName_strictlyAscending u arr :
  strictlyAscending arr → strictlyAscending (withName u arr).
Proof.
  intros H. unfold withName. destruct (arrayIncludes arr u) eqn:E; [exact H|].
  apply sort_strictlyAscending, NoDup_app.
  split; [apply strictlyAscending_NoDup, H|]. split; [|apply NoDup_singleton].
  intros x Hx Hx'. apply list_elem_of_singleton in Hx' as ->.
  apply arrayIncludes_elem_of in Hx. congruence.
Qed.

Lemma withName_elem_of u arr y : y ∈ withName u arr ↔ y ∈ arr ∨ y = u.
Proof.
  unfold withName. destruct (arrayIncludes arr u) eqn:E.
  - apply arrayIncludes_elem_of in E. split; [auto|]. intros [H| ->]; assumption.
  - rewrite sort_perm, elem_of_app, list_elem_of_singleton. reflexivity.
Qed.

Lemma withName_idempotent u arr : withName u (withName u arr) = withName u arr.
Proof.
  unfold withName at 1.
  assert (arrayIncludes (withName u arr) u = true) as ->; [|reflexivity].
  apply arrayIncludes_elem_of, withName_elem_of. right. reflexivity.
Qed.

(** ** What the cache tasks leave in the caches *)

Lemma addUnder_eq key u (m : gmap string (list string)) :
  addUnder key u m
  = (<[key := withName u (default [] (m !! key))]> m,
     negb (arrayIncludes (default [] (m !! key)) u)).
Proof.
  unfold addUnder, withName.
  destruct (arrayIncludes (default [] (m !! key)) u) eqn:E; simpl; [|reflexivity].
  apply arrayIncludes_default in E as (arr & Hm & _).
  rewrite Hm. simpl. rewrite (insert_id m key arr Hm). reflexivity.
Qed.

(** Lines 119-131 as a whole: the name is added under ["all"] and under the
    abbreviation, the other keys are left alone, and the flag tells whether
    one of the two arrays lacked the name. *)
Lemma addUploader_spec u a (m m' : gmap string (list string)) changed :
  addUploader u a m = Some (m', changed) →
  m' !! "all" = Some (withName u (default [] (m !! "all")))
  ∧ m' !! a = Some (withName u (default [] (m !! a)))
  ∧ (∀ k, k ≠ "all" → k ≠ a → m' !! k = m !! k)
  ∧ changed = negb (arrayIncludes (default [] (m !! "all")) u)
              || negb (arrayIncludes (default [] (m !! a)) u).
Proof.
  unfold addUploader, getProp.
  destruct (decide (a = "all")) as [->|Hne].
  - rewrite lookup_insert_eq, addUnder_eq. cbv beta iota. rewrite addUnder_eq.
    repeat first [rewrite lookup_insert_eq | progress cbn [default from_option id]].
    rewrite withName_idempotent. intros [= <- <-].
    repeat first [rewrite lookup_insert_eq | progress cbn [default from_option id]].
    split; [reflexivity|]. split; [reflexivity|]. split.
    + intros k Hk _. rewrite !lookup_insert_ne by congruence. reflexivity.
    + destruct (arrayIncludes (default [] (m !! "all")) u) eqn:E; [|reflexivity].
      unfold withName. rewrite E, E. reflexivity.
  - rewrite lookup_insert_ne by congruence.
    assert (∀ arr,
      (let '(cacheData, changedAll) :=
         addUnder "all" u (<[a:=arr]> (<["all":=default [] (m !! "all")]> m)) in
       let '(cacheData0, changedKey) := addUnder a u cacheData in
       Some (cacheData0, changedAll || changedKey)) = Some (m', changed) →
      arr = default [] (m !! a) →
      m' !! "all" = Some (withName u (default [] (m !! "all")))
      ∧ m' !! a = Some (withName u (default [] (m !! a)))
      ∧ (∀ k, k ≠ "all" → k ≠ a → m' !! k = m !! k)
      ∧ changed = negb (arrayIncludes (default [] (m !! "all")) u)
                  || negb (arrayIncludes (default [] (m !! a)) u)) as Hgen.
    { intros arr. rewrite addUnder_eq. cbv beta iota. rewrite addUnder_eq.
      repeat first [ rewrite lookup_insert_eq
                   | rewrite (lookup_insert_ne _ a "all") by congruence
                   | rewrite (lookup_insert_ne _ "all" a) by congruence
                   | progress cbn [default from_option id] ].
      intros [= <- <-] ->.
      repeat first [ rewrite lookup_insert_eq
                   | rewrite (lookup_insert_ne _ a "all") by congruence
                   | rewrite (lookup_insert_ne _ "all" a) by congruence
                   | progress cbn [default from_option id] ].
      repeat split.
      intros k Hk Hk'. rewrite !lookup_insert_ne by congruence. reflexivity. }
    destruct (m !! a) as [arr|] eqn:Ea.
    + intros H. apply (Hgen arr H). reflexivity.
    + destruct (bool_decide (a ∈ objectPrototypeKeys)); [discriminate|].
      intros H. apply (Hgen [] H). reflexivity.
Qed.

Lemma listedUnder_Document key (data : option (gmap string (list string))) :
  listedUnder key (Document data)
  = default [] (asObject (from_option Parsed EmptyObject data) !! key).
Proof. destruct data; [reflexivity|]. simpl. rewrite lookup_empty. reflexivity. Qed.

Lemma listedUnder_ReadOnly key (data : option (gmap string (list string))) :
  listedUnder key (ReadOnly data)
  = default [] (asObject (from_option Parsed EmptyObject data) !! key).
Proof. destruct data; [reflexivity|]. simpl. rewrite lookup_empty. reflexivity. Qed.

Lemma updateLinksCache_cases event eventData s :
  storeAfter (updateLinksCache event eventData) s = s
  ∨ ∃ x cs,
      includes event ".create" = true
      ∧ truthy (createdBy eventData) = Some x
      ∧ settle (updateLinksCache event eventData) s
        = (fulfilled, storeAfter (updateLinksCache event eventData) s, cs).
Proof.
  unfold storeAfter. rewrite updateLinksCache_settle.
  destruct (includes event ".create") eqn:Ec; [|left; reflexivity]. simpl.
  destruct (truthy (createdBy eventData)) as [x|]; [|left; reflexivity].
  destruct (linksCacheDocument s) as [|data|data]; [left; reflexivity| |]; simpl.
  - destruct (arrayIncludes _ x); [left; reflexivity|].
    right. eexists x, _. repeat split.
  - destruct (arrayIncludes _ x); left; reflexivity.
Qed.

Lemma updateLinksCache_listed event eventData s x s' cs :
  includes event ".create" = true →
  truthy (createdBy eventData) = Some x →
  settle (updateLinksCache event eventData) s = (fulfilled, s', cs) →
  listedUnder "uploaders" (linksCacheDocument s')
  = withName x (listedUnder "uploaders" (linksCacheDocument s))
  ∧ (UpdateDocument LINKS_UPLOADERS_CACHE_DOCUMENT_ID ∈ cs
     ↔ x ∉ listedUnder "uploaders" (linksCacheDocument s)).
Proof.
  intros Hc Hx. rewrite updateLinksCache_settle, Hc, Hx. simpl.
  destruct (linksCacheDocument s) as [|data|data] eqn:E; [discriminate| |].
  - rewrite listedUnder_Document. simpl. unfold withName.
    destruct (arrayIncludes _ x) eqn:Einc; intros [= <- <-].
    + rewrite E, listedUnder_Document. split; [reflexivity|].
      apply arrayIncludes_elem_of in Einc. split; [|contradiction].
      intros H. apply elem_of_cons in H as [H|H]; [discriminate|]. inversion H.
    + simpl. rewrite lookup_singleton_eq. simpl. split; [reflexivity|].
      split; [|intros _; right; left].
      intros _ Hin. apply arrayIncludes_elem_of in Hin. congruence.
  - rewrite listedUnder_ReadOnly. simpl. unfold withName.
    destruct (arrayIncludes _ x) eqn:Einc; [|discriminate]. intros [= <- <-].
    rewrite E, listedUnder_ReadOnly. split; [reflexivity|].
    apply arrayIncludes_elem_of in Einc. split; [|contradiction].
    intros H. apply elem_of_cons in H as [H|H]; [discriminate|]. inversion H.
Qed.

(** X15.  After a creation that names its creator has been delivered to the
    links cache task with success, the cached names are the names cached
    before together with the creator's, and the document was written if and
    only if the creator's name was not cached yet. *)
Theorem X15_links_cache_gains_the_creator event eventData s x s' cs :
  includes event ".create" = true →
  truthy (createdBy eventData) = Some x →
  settle (updateLinksCache event eventData) s = (fulfilled, s', cs) →
  (∀ y, y ∈ listedUnder "uploaders" (linksCacheDocument s')
        ↔ y ∈ listedUnder "uploaders" (linksCacheDocument s) ∨ y = x)
  ∧ (UpdateDocument LINKS_UPLOADERS_CACHE_DOCUMENT_ID ∈ cs
     ↔ x ∉ listedUnder "uploaders" (linksCacheDocument s)).
Proof.
  intros Hc Hx Hs.
  destruct (updateLinksCache_listed event eventData s x s' cs Hc Hx Hs) as [Hl Hw].
  split; [|exact Hw]. intros y. rewrite Hl. apply withName_elem_of.
Qed.

Lemma X15_witness :
  (∀ y, y ∈ listedUnder "uploaders"
            (linksCacheDocument
               (linksRef.(writeSlot) (Document (Some {[ "uploaders" := ["Dan"] ]}))
                  emptyStore))
        ↔ y ∈ listedUnder "uploaders" (linksCacheDocument emptyStore) ∨ y = "Dan")
  ∧ (UpdateDocument LINKS_UPLOADERS_CACHE_DOCUMENT_ID
     ∈ [GetDocument LINKS_UPLOADERS_CACHE_DOCUMENT_ID;
        UpdateDocument LINKS_UPLOADERS_CACHE_DOCUMENT_ID]
     ↔ "Dan" ∉ listedUnder "uploaders" (linksCacheDocument emptyStore)).
Proof.
  apply (X15_links_cache_gains_the_creator
           "databases.main.collections.links.documents.d1.create"
           (payload None (Some "Dan") None) emptyStore "Dan").
  - reflexivity.
  - reflexivity.
  - vm_compute. reflexivity.
Defined.

Lemma links_order_kept event eventData s :
  strictlyAscending (listedUnder "uploaders" (linksCacheDocument s)) →
  strictlyAscending
    (listedUnder "uploaders"
       (linksCacheDocument (storeAfter (updateLinksCache event eventData) s))).
Proof.
  intros H.
  destruct (updateLinksCache_cases event eventData s)
    as [-> | (x & cs & Hc & Hx & Hs)]; [exact H|].
  destruct (updateLinksCache_listed _ _ _ _ _ _ Hc Hx Hs) as [-> _].
  apply withName_strictlyAscending, H.
Qed.

(** X16.  The links cache stays in order: if the cached names are strictly
    ascending (sorted in code unit order, without duplicates) before the
    task runs, they are so afterwards, for every event. *)
Theorem X16_links_cache_stays_sorted event eventData s :
  strictlyAscending (listedUnder "uploaders" (linksCacheDocument s)) →
  strictlyAscending
    (listedUnder "uploaders"
       (linksCacheDocument (storeAfter (updateLinksCache event eventData) s))).
Proof. apply links_order_kept. Qed.

Lemma X16_witness :
  strictlyAscending
    (listedUnder "uploaders"
       (linksCacheDocument
          (storeAfter
             (updateLinksCache "databases.main.collections.links.documents.d1.create"
                (payload None (Some "😀") None))
             (linksRef.(writeSlot) (Document (Some {[ "uploaders" := ["ﬁ"] ]}))
                emptyStore)))).
Proof.
  apply X16_links_cache_stays_sorted. vm_compute. repeat constructor.
Defined.

(** A name outside the basic plane is placed by its surrogate pair, before
    U+FB01. *)
Example links_cache_astral_name :
  settle (updateLinksCache "databases.main.collections.links.documents.d1.create"
            (payload None (Some "😀") None))
    (linksRef.(writeSlot) (Document (Some {[ "uploaders" := ["ﬁ"] ]})) emptyStore)
  = (fulfilled,
     linksRef.(writeSlot) (Document (Some {[ "uploaders" := ["😀"; "ﬁ"] ]})) emptyStore,
     [GetDocument LINKS_UPLOADERS_CACHE_DOCUMENT_ID;
      UpdateDocument LINKS_UPLOADERS_CACHE_DOCUMENT_ID]).
Proof. vm_compute. reflexivity. Qed.

Lemma updateUploaderCache_cases env event eventData s :
  storeAfter (updateUploaderCache env event eventData) s = s
  ∨ ∃ u a cs,
      includes event ("collections." ++ APPWRITE_NOTE_COLLECTION_ID env) = true
      ∧ includes event ".create" = true
      ∧ truthy (userName eventData) = Some u
      ∧ truthy (abbreviation eventData) = Some a
      ∧ settle (updateUploaderCache env event eventData) s
        = (fulfilled, storeAfter (updateUploaderCache env event eventData) s, cs).
Proof.
  unfold storeAfter. rewrite updateUploaderCache_settle.
  destruct (includes event _) eqn:En; [|left; reflexivity]. simpl.
  destruct (includes event ".create") eqn:Ec; [|left; reflexivity]. simpl.
  destruct (truthy (userName eventData)) as [u|]; [|left; reflexivity].
  destruct (truthy (abbreviation eventData)) as [a|]; [|left; reflexivity].
  destruct (uploadersCacheDocument s) as [|data|data]; [left; reflexivity| |].
  - destruct (addUploader u a _) as [[cacheData []]|]; try (left; reflexivity).
    right. eexists u, a, _. repeat split.
  - destruct (addUploader u a _) as [[cacheData []]|]; left; reflexivity.
Qed.

Lemma updateUploaderCache_listed env event eventData s u a s' cs :
  includes event ("collections." ++ APPWRITE_NOTE_COLLECTION_ID env) = true →
  includes event ".create" = true →
  truthy (userName eventData) = Some u →
  truthy (abbreviation eventData) = Some a →
  settle (updateUploaderCache env event eventData) s = (fulfilled, s', cs) →
  (∀ k, listedUnder k (uploadersCacheDocument s')
        = if decide (k = "all" ∨ k = a)
          then withName u (listedUnder k (uploadersCacheDocument s))
          else listedUnder k (uploadersCacheDocument s))
  ∧ (UpdateDocument UPLOADERS_CACHE_DOCUMENT_ID ∈ cs
     ↔ ¬ (u ∈ listedUnder "all" (uploadersCacheDocument s)
          ∧ u ∈ listedUnder a (uploadersCacheDocument s))).
Proof.
  intros Hn Hc Hu Ha. rewrite updateUploaderCache_settle, Hn, Hc, Hu, Ha. simpl.
  destruct (uploadersCacheDocument s) as [|data|data] eqn:E; [discriminate| |].
  - rewrite !listedUnder_Document.
    set (obj := asObject (from_option Parsed EmptyObject data)).
    destruct (addUploader u a obj) as [[m' changed]|] eqn:Eadd; [|discriminate].
    destruct (addUploader_spec u a obj m' changed Eadd) as (HAll & HA & Hother & Hch).
    assert (Hlists : ∀ k, default [] (m' !! k)
              = if decide (k = "all" ∨ k = a) then withName u (default [] (obj !! k))
                else default [] (obj !! k)).
    { intros k. case_decide as Hk.
      - destruct Hk as [-> | ->]; [rewrite HAll | rewrite HA]; reflexivity.
      - rewrite Hother by tauto. reflexivity. }
    destruct changed; intros [= <- <-].
    + split.
      * intros k. rewrite (listedUnder_Document k data). fold obj. exact (Hlists k).
      * split; [|intros _; right; left]. intros _ [H1 H2].
        apply arrayIncludes_elem_of in H1, H2. rewrite H1, H2 in Hch. discriminate.
    + symmetry in Hch. apply orb_false_iff in Hch as [H1 H2].
      apply negb_false_iff in H1, H2. split.
      * intros k. rewrite E, (listedUnder_Document k data). fold obj.
        case_decide as Hk; [|reflexivity].
        unfold withName.
        destruct Hk as [-> | ->]; [rewrite H1 | rewrite H2]; reflexivity.
      * split.
        -- intros H. apply elem_of_cons in H as [H|H]; [discriminate|]. inversion H.
        -- intros H. exfalso. apply H. split; apply arrayIncludes_elem_of; assumption.
  - rewrite !listedUnder_ReadOnly.
    set (obj := asObject (from_option Parsed EmptyObject data)).
    destruct (addUploader u a obj) as [[m' changed]|] eqn:Eadd; [|discriminate].
    destruct (addUploader_spec u a obj m' changed Eadd) as (_ & _ & _ & Hch).
    destruct changed; [discriminate|]. intros [= <- <-].
    symmetry in Hch. apply orb_false_iff in Hch as [H1 H2].
    apply negb_false_iff in H1, H2. split.
    + intros k. rewrite E, (listedUnder_ReadOnly k data). fold obj.
      case_decide as Hk; [|reflexivity].
      unfold withName.
      destruct Hk as [-> | ->]; [rewrite H1 | rewrite H2]; reflexivity.
    + split.
      * intros H. apply elem_of_cons in H as [H|H]; [discriminate|]. inversion H.
      * intros H. exfalso. apply H. split; apply arrayIncludes_elem_of; assumption.
Qed.

(** X17.  After a creation on the notes collection that carries a user name
    and an abbreviation has been delivered to the uploader cache task with
    success, the names under ["all"] and under the abbreviation are those
    cached before together with the user's, and the document was written if
    and only if the name was missing under one of the two keys. *)
Theorem X17_uploader_cache_gains_the_user env event eventData s u a s' cs :
  includes event ("collections." ++ APPWRITE_NOTE_COLLECTION_ID env) = true →
  includes event ".create" = true →
  truthy (userName eventData) = Some u →
  truthy (abbreviation eventData) = Some a →
  settle (updateUploaderCache env event eventData) s = (fulfilled, s', cs) →
  (∀ k y, k = "all" ∨ k = a →
          (y ∈ listedUnder k (uploadersCacheDocument s')
           ↔ y ∈ listedUnder k (uploadersCacheDocument s) ∨ y = u))
  ∧ (UpdateDocument UPLOADERS_CACHE_DOCUMENT_ID ∈ cs
     ↔ ¬ (u ∈ listedUnder "all" (uploadersCacheDocument s)
          ∧ u ∈ listedUnder a (uploadersCacheDocument s))).
Proof.
  intros Hn Hc Hu Ha Hs.
  destruct (updateUploaderCache_listed env event eventData s u a s' cs Hn Hc Hu Ha Hs)
    as [Hl Hw].
  split; [|exact Hw]. intros k y Hk. rewrite Hl, decide_True by exact Hk.
  apply withName_elem_of.
Qed.

Lemma X17_witness :
  let s := uploadersRef.(writeSlot) (Document (Some {[ "all" := ["Dan"] ]})) emptyStore in
  let s' := uploadersRef.(writeSlot)
              (Document (Some (<["PHY" := ["Dan"]]> {[ "all" := ["Dan"] ]}))) emptyStore in
  (∀ k y, k = "all" ∨ k = "PHY" →
          (y ∈ listedUnder k (uploadersCacheDocument s')
           ↔ y ∈ listedUnder k (uploadersCacheDocument s) ∨ y = "Dan"))
  ∧ (UpdateDocument UPLOADERS_CACHE_DOCUMENT_ID
     ∈ [GetDocument UPLOADERS_CACHE_DOCUMENT_ID;
        UpdateDocument UPLOADERS_CACHE_DOCUMENT_ID]
     ↔ ¬ ("Dan" ∈ listedUnder "all" (uploadersCacheDocument s)
          ∧ "Dan" ∈ listedUnder "PHY" (uploadersCacheDocument s))).
Proof.
  intros s s'.
  apply (X17_uploader_cache_gains_the_user env0
           "databases.main.collections.notes.documents.d1.create"
           (payload (Some "Dan") None (Some "PHY")) s "Dan" "PHY").
  - reflexivity.
  - reflexivity.
  - reflexivity.
  - reflexivity.
  - vm_compute. reflexivity.
Defined.

Lemma uploader_lists_after env event eventData s k :
  listedUnder k
    (uploadersCacheDocument (storeAfter (updateUploaderCache env event eventData) s))
  = listedUnder k (uploadersCacheDocument s)
  ∨ ∃ u, truthy (userName eventData) = Some u
         ∧ (k = "all" ∨ truthy (abbreviation eventData) = Some k)
         ∧ listedUnder k
             (uploadersCacheDocument
                (storeAfter (updateUploaderCache env event eventData) s))
           = withName u (listedUnder k (uploadersCacheDocument s)).
Proof.
  destruct (updateUploaderCache_cases env event eventData s)
    as [-> | (u & a & cs & Hn & Hc & Hu & Ha & Hs)]; [left; reflexivity|].
  destruct (updateUploaderCache_listed _ _ _ _ _ _ _ _ Hn Hc Hu Ha Hs) as [Hl _].
  rewrite Hl. case_decide as Hk; [|left; reflexivity].
  right. exists u. split; [exact Hu|]. split; [|reflexivity].
  destruct Hk as [-> | ->]; [left; reflexivity | right; exact Ha].
Qed.

Lemma uploader_order_kept env event eventData s k :
  strictlyAscending (listedUnder k (uploadersCacheDocument s)) →
  strictlyAscending
    (listedUnder k
       (uploadersCacheDocument
          (storeAfter (updateUploaderCache env event eventData) s))).
Proof.
  intros H.
  destruct (uploader_lists_after env event eventData s k) as [-> | (u & _ & _ & ->)];
    [exact H|].
  apply withName_strictlyAscending, H.
Qed.

(** X18.  Every array of the uploader cache stays in order: for every key,
    if the names under it are strictly ascending before the task runs, they
    are so afterwards, for every event. *)
Theorem X18_uploader_cache_stays_sorted env event eventData s k :
  strictlyAscending (listedUnder k (uploadersCacheDocument s)) →
  strictlyAscending
    (listedUnder k
       (uploadersCacheDocument
          (storeAfter (updateUploaderCache env event eventData) s))).
Proof. apply uploader_order_kept. Qed.

Lemma X18_witness :
  strictlyAscending
    (listedUnder "all"
       (uploadersCacheDocument
          (storeAfter
             (updateUploaderCache env0
                "databases.main.collections.notes.documents.d1.create"
                (payload (Some "😀") None (Some "PHY")))
             (uploadersRef.(writeSlot) (Document (Some {[ "all" := ["Zoe"; "ﬁ"] ]}))
                emptyStore)))).
Proof.
  apply X18_uploader_cache_stays_sorted. vm_compute. repeat constructor.
Defined.

Example uploader_cache_astral_name :
  listedUnder "all"
    (uploadersCacheDocument
       (storeAfter
          (updateUploaderCache env0
             "databases.main.collections.notes.documents.d1.create"
             (payload (Some "😀") None (Some "PHY")))
          (uploadersRef.(writeSlot) (Document (Some {[ "all" := ["Zoe"; "ﬁ"] ]}))
             emptyStore)))
  = [ "Zoe"; "😀"; "ﬁ" ].
Proof. vm_compute. reflexivity. Qed.

(** X19.  Names are never removed from the caches: whatever the event, every
    name cached by the links cache, and every name under any key of the
    uploader cache, is still there after the task. *)
Theorem X19_cached_names_are_never_removed env event eventData s :
  listedUnder "uploaders" (linksCacheDocument s)
  ⊆ listedUnder "uploaders"
      (linksCacheDocument (storeAfter (updateLinksCache event eventData) s))
  ∧ ∀ k,
      listedUnder k (uploadersCacheDocument s)
      ⊆ listedUnder k
          (uploadersCacheDocument
             (storeAfter (updateUploaderCache env event eventData) s)).
Proof.
  split.
  - destruct (updateLinksCache_cases event eventData s)
      as [-> | (x & cs & Hc & Hx & Hs)]; [reflexivity|].
    destruct (updateLinksCache_listed _ _ _ _ _ _ Hc Hx Hs) as [-> _].
    intros y Hy. apply withName_elem_of. left. exact Hy.
  - intros k.
    destruct (uploader_lists_after env event eventData s k) as [-> | (u & _ & _ & ->)];
      [reflexivity|].
    intros y Hy. apply withName_elem_of. left. exact Hy.
Qed.

(** X20.  The uploader cache task changes two keys at most: the names under
    a key that is neither ["all"] nor the abbreviation of the payload are
    left as they are. *)
Theorem X20_other_subjects_untouched env event eventData s k :
  k ≠ "all" →
  truthy (abbreviation eventData) ≠ Some k →
  listedUnder k
    (uploadersCacheDocument (storeAfter (updateUploaderCache env event eventData) s))
  = listedUnder k (uploadersCacheDocument s).
Proof.
  intros Hall Habbr.
  destruct (uploader_lists_after env event eventData s k)
    as [H | (u & _ & [Hk | Hk] & _)]; [exact H | contradiction | contradiction].
Qed.

Lemma X20_witness :
  listedUnder "CHE"
    (uploadersCacheDocument
       (storeAfter
          (updateUploaderCache env0
             "databases.main.collections.notes.documents.d1.create"
             (payload (Some "Alice") None (Some "PHY")))
          (uploadersRef.(writeSlot)
             (Document (Some (<["CHE" := ["Eve"]]> {[ "all" := ["Eve"] ]})))
             emptyStore)))
  = listedUnder "CHE"
      (uploadersCacheDocument
         (uploadersRef.(writeSlot)
            (Document (Some (<["CHE" := ["Eve"]]> {[ "all" := ["Eve"] ]})))
            emptyStore)).
Proof.
  apply X20_other_subjects_untouched; discriminate.
Defined.

(** X21.  When the abbreviation is the name of a member of
    [Object.prototype] and the cache has no key of that name, line 120 picks
    up the inherited member instead of an array: the task is rejected with a
    [TypeError] after reading the cache, and nothing is written, not even
    under ["all"]. *)
Theorem X21_inherited_abbreviation_is_rejected env event eventData s u a data :
  includes event ("collections." ++ APPWRITE_NOTE_COLLECTION_ID env) = true →
  includes event ".create" = true →
  truthy (userName eventData) = Some u →
  truthy (abbreviation eventData) = Some a →
  a ∈ objectPrototypeKeys →
  uploadersCacheDocument s = Document data →
  asObject (from_option Parsed EmptyObject data) !! a = None →
  settle (updateUploaderCache env event eventData) s
  = (rejected (TypeError "cacheData[abbreviation].includes is not a function"),
     s, [GetDocument UPLOADERS_CACHE_DOCUMENT_ID]).
Proof.
  intros Hn Hc Hu Ha Hin Hdoc Hnone.
  rewrite updateUploaderCache_settle, Hn, Hc, Hu, Ha, Hdoc. simpl.
  assert (a ≠ "all") as Hne.
  { intros ->. revert Hin. apply (bool_decide_unpack _). vm_compute. exact I. }
  unfold addUploader, getProp.
  rewrite lookup_insert_ne by congruence. rewrite Hnone.
  rewrite bool_decide_eq_true_2 by exact Hin. reflexivity.
Qed.

Lemma X21_witness :
  settle (updateUploaderCache env0 "databases.main.collections.notes.documents.d1.create"
            (payload (Some "Dan") None (Some "toString"))) emptyStore
  = (rejected (TypeError "cacheData[abbreviation].includes is not a function"),
     emptyStore, [GetDocument UPLOADERS_CACHE_DOCUMENT_ID]).
Proof.
  apply (X21_inherited_abbreviation_is_rejected env0 _ _ emptyStore "Dan" "toString" None).
  - reflexivity.
  - reflexivity.
  - reflexivity.
  - reflexivity.
  - apply (bool_decide_unpack _). vm_compute. exact I.
  - reflexivity.
  - reflexivity.
Defined.

(** ** The total in any order of events *)

(** X22.  Whatever the order of the create and delete events attributed to
    one user, delivered to an empty stats list, the user's [total] ends at
    creations minus deletions minus the lowest value that difference took
    along the way (0 before the first event): every deletion that found
    [total] at 0 was absorbed by the clamp. *)
Theorem X22_total_in_any_order env u evs s :
  Forall (λ ev : delivery,
            isCreate ev.1 || isDelete ev.1 = true ∧ attribution ev.2 = Some u) evs →
  evs ≠ [] →
  statsDocument s = Document (Some []) →
  (∃ userStats,
     statsDocument (statsEvents env evs s) = Document (Some [userStats])
     ∧ name userStats = u
     ∧ total userStats = (creates evs - deletes evs - lowest evs)%Z)
  ∧ (∀ k : nat, (lowest evs ≤ net (take k evs))%Z)
  ∧ (∃ k : nat, lowest evs = net (take k evs)).
Proof.
  intros Hall Hne Hdoc.
  assert (Hkinds : Forall (λ ev : delivery, isCreate ev.1 || isDelete ev.1 = true) evs).
  { eapply Forall_impl; [exact Hall|]. intros ev [H _]. exact H. }
  split; [apply total_after_any_sequence; assumption|].
  split; [apply lowest_le_prefix, Hkinds | apply lowest_is_prefix, Hkinds].
Qed.

Lemma X22_witness :
  let alice := payload (Some "Alice") None None in
  let evs := [ ("databases.main.collections.notes.documents.d1.delete", alice);
               ("databases.main.collections.links.documents.d2.delete", alice);
               ("databases.main.collections.notes.documents.d3.create", alice) ] in
  (∃ userStats,
     statsDocument (statsEvents env0 evs emptyStore) = Document (Some [userStats])
     ∧ name userStats = "Alice"
     ∧ total userStats = (creates evs - deletes evs - lowest evs)%Z)
  ∧ (∀ k : nat, (lowest evs ≤ net (take k evs))%Z)
  ∧ (∃ k : nat, lowest evs = net (take k evs)).
Proof.
  intros alice evs. apply X22_total_in_any_order.
  - repeat (apply Forall_cons_2 || apply Forall_nil_2); split; reflexivity.
  - discriminate.
  - reflexivity.
Defined.

Example two_deletes_then_create :
  statsDocument
    (statsEvents env0
       [ ("databases.main.collections.notes.documents.d1.delete",
          payload (Some "Alice") None None);
         ("databases.main.collections.links.documents.d2.delete",
          payload (Some "Alice") None None);
         ("databases.main.collections.notes.documents.d3.create",
          payload (Some "Alice") None None) ] emptyStore)
  = Document (Some [ entry "Alice" 1 0 0 1 ]).
Proof. reflexivity. Qed.

(** ** The operation at the end of the event name *)

Lemma endsWith_unfold s suffix :
  endsWith s suffix
  = String.eqb s suffix
    || match s with
       | EmptyString => false
       | String _ rest => endsWith rest suffix
       end.
Proof. destruct s; reflexivity. Qed.

Lemma prefix_refl s : String.prefix s s = true.
Proof.
  induction s as [|c s IH]; [reflexivity|]. simpl.
  destruct (ascii_dec c c); [exact IH | contradiction].
Qed.

Lemma endsWith_includes s suffix :
  endsWith s suffix = true → includes s suffix = true.
Proof.
  induction s as [|c s IH]; rewrite endsWith_unfold, includes_unfold; intros H.
  - apply orb_true_iff in H as [H|H]; [|discriminate].
    apply String.eqb_eq in H as <-. reflexivity.
  - apply orb_true_iff in H as [H|H].
    + apply String.eqb_eq in H as <-. rewrite prefix_refl. reflexivity.
    + rewrite (IH H). apply orb_true_r.
Qed.

Lemma endsWith_length s suffix :
  endsWith s suffix = true → (String.length suffix ≤ String.length s)%nat.
Proof.
  induction s as [|c s IH]; rewrite endsWith_unfold; intros H.
  - apply orb_true_iff in H as [H|H]; [|discriminate].
    apply String.eqb_eq in H as <-. reflexivity.
  - apply orb_true_iff in H as [H|H].
    + apply String.eqb_eq in H as <-. reflexivity.
    + specialize (IH H). simpl. lia.
Qed.

(** A name ends with one suffix of a given length only. *)
Lemma endsWith_same_length s a b :
  String.length a = String.length b →
  endsWith s a = true → endsWith s b = true → a = b.
Proof.
  intros Hlen. induction s as [|c s IH]; intros Ha Hb.
  - rewrite (endsWith_unfold "" a) in Ha. rewrite (endsWith_unfold "" b) in Hb.
    apply orb_true_iff in Ha as [Ha|Ha]; [|discriminate].
    apply orb_true_iff in Hb as [Hb|Hb]; [|discriminate].
    apply String.eqb_eq in Ha, Hb. congruence.
  - rewrite (endsWith_unfold (String c s) a) in Ha.
    rewrite (endsWith_unfold (String c s) b) in Hb.
    apply orb_true_iff in Ha as [Ha|Ha]; apply orb_true_iff in Hb as [Hb|Hb].
    + apply String.eqb_eq in Ha, Hb. congruence.
    + apply String.eqb_eq in Ha. apply endsWith_length in Hb.
      rewrite <- Ha in Hlen. simpl in Hlen. lia.
    + apply String.eqb_eq in Hb. apply endsWith_length in Ha.
      rewrite <- Hb in Hlen. simpl in Hlen. lia.
    + apply IH; assumption.
Qed.

Lemma isCreation_isDeletion event : isCreation event = true → isDeletion event = false.
Proof.
  unfold isCreation, isDeletion. intros Hc.
  destruct (endsWith event ".delete") eqn:Hd; [|reflexivity].
  discriminate (endsWith_same_length event ".create" ".delete" eq_refl Hc Hd).
Qed.

(** On a recognised event the tests of the code find the operation. *)
Lemma recognised_kinds event :
  recognised event = true →
  isCreate event = isCreation event ∧ isDelete event = isDeletion event.
Proof.
  unfold recognised, isCreate, isDelete. intros H.
  destruct (isCreation event) eqn:Hc.
  - rewrite (isCreation_isDeletion event Hc).
    rewrite (endsWith_includes event ".create" Hc). split; reflexivity.
  - simpl in H. apply andb_true_iff in H as [Hd Hn]. apply negb_true_iff in Hn.
    rewrite Hn, Hd. rewrite (endsWith_includes event ".delete" Hd). split; reflexivity.
Qed.

Lemma recognised_increment event :
  recognised event = true →
  isCreate event || isDelete event = true
  ∧ increment event = if isCreation event then 1%Z else (-1)%Z.
Proof.
  intros H. destruct (recognised_kinds event H) as [Hc Hd].
  rewrite Hc, Hd. unfold increment. fold (isCreate event). rewrite Hc.
  split; [|reflexivity].
  unfold recognised in H. apply orb_true_iff in H as [->|H]; [reflexivity|].
  apply andb_true_iff in H as [-> _]. apply orb_true_r.
Qed.

Lemma Forall_onCollection (P : delivery → Prop) coll evs :
  Forall P evs → Forall P (onCollection coll evs).
Proof.
  induction 1 as [|ev evs Hev _ IH]; [constructor|].
  unfold onCollection. simpl. case_bool_decide; [constructor; assumption | exact IH].
Qed.

Lemma balance_net evs :
  Forall (λ ev : delivery, recognised ev.1 = true) evs → balance evs = net evs.
Proof.
  unfold balance, net, creations, deletions, creates, deletes.
  induction 1 as [|ev evs Hev _ IH]; [reflexivity|].
  destruct (recognised_kinds ev.1 Hev) as [Hc Hd]. simpl. rewrite Hc, Hd.
  destruct (isCreation ev.1), (isDeletion ev.1); simpl length; lia.
Qed.

Lemma recognised_kinds_Forall evs :
  Forall (λ ev : delivery, recognised ev.1 = true) evs →
  Forall (λ ev : delivery, isCreate ev.1 || isDelete ev.1 = true) evs.
Proof.
  intros H. eapply Forall_impl; [exact H|].
  intros ev Hev. apply (recognised_increment ev.1 Hev).
Qed.

(** [lowest] computes the lowest balance. *)
Lemma lowestBalance_lowest evs :
  Forall (λ ev : delivery, recognised ev.1 = true) evs →
  lowestBalance evs (lowest evs).
Proof.
  intros Hrec. pose proof (recognised_kinds_Forall evs Hrec) as Hkinds. split.
  - intros k. rewrite balance_net by apply Forall_take, Hrec.
    apply lowest_le_prefix, Hkinds.
  - destruct (lowest_is_prefix evs Hkinds) as [k Hk]. exists k.
    rewrite balance_net by apply Forall_take, Hrec. exact Hk.
Qed.

(** Each counter of the user's entry walks over its own events: the total
    over all of them, a category counter over those of its collection. *)
Lemma fold_applyEvent_counters env u evs : ∀ userStats,
  name userStats = u →
  nonNegative userStats →
  ∃ userStats',
    foldl (λ l (ev : delivery), applyEvent env ev.1 u l) [userStats] evs = [userStats']
    ∧ name userStats' = u
    ∧ total userStats'
      = foldl (λ t (ev : delivery), Z.max 0 (t + increment ev.1)) (total userStats) evs
    ∧ notes userStats'
      = foldl (λ t (ev : delivery), Z.max 0 (t + increment ev.1)) (notes userStats)
          (onCollection (APPWRITE_NOTE_COLLECTION_ID env) evs)
    ∧ forms userStats'
      = foldl (λ t (ev : delivery), Z.max 0 (t + increment ev.1)) (forms userStats)
          (onCollection (APPWRITE_FORM_COLLECTION_ID env) evs)
    ∧ youtube userStats'
      = foldl (λ t (ev : delivery), Z.max 0 (t + increment ev.1)) (youtube userStats)
          (onCollection (APPWRITE_YOUTUBE_COLLECTION_ID env) evs).
Proof.
  induction evs as [|ev evs IH]; intros userStats Hname Hnn.
  - exists userStats. repeat split; assumption.
  - change (foldl ?f [userStats] (ev :: evs))
      with (foldl f (applyEvent env ev.1 u [userStats]) evs).
    rewrite applyEvent_single by exact Hname.
    destruct (IH (clampCounts (addIncrement env ev.1 userStats)) Hname
                (clampCounts_nonNegative _))
      as (userStats' & Hfold & Hname' & Ht & Hn & Hf & Hy).
    exists userStats'. split; [exact Hfold|]. split; [exact Hname'|].
    destruct Hnn as (Hn0 & Hf0 & Hy0 & Ht0).
    rewrite Ht, Hn, Hf, Hy. unfold onCollection. simpl.
    repeat split; case_bool_decide; simpl; try reflexivity; f_equal; lia.
Qed.

Lemma fold_applyEvent_within env u evs : ∀ userStats userStats',
  NoDup [ APPWRITE_NOTE_COLLECTION_ID env; APPWRITE_FORM_COLLECTION_ID env;
          APPWRITE_YOUTUBE_COLLECTION_ID env ] →
  Forall (λ ev : delivery, tracked env ev.1) evs →
  name userStats = u →
  nonNegative userStats ∧ withinCategories userStats →
  foldl (λ l (ev : delivery), applyEvent env ev.1 u l) [userStats] evs = [userStats'] →
  withinCategories userStats'.
Proof.
  induction evs as [|ev evs IH]; intros userStats userStats' Hids Htr Hname Hinv.
  - intros [= <-]. apply Hinv.
  - apply Forall_cons in Htr as [Hev Htr].
    change (foldl ?f [userStats] (ev :: evs))
      with (foldl f (applyEvent env ev.1 u [userStats]) evs).
    rewrite applyEvent_single by exact Hname.
    apply IH; try assumption. apply book_keeps_within; assumption.
Qed.

Lemma lowest_bounds evs :
  Forall (λ ev : delivery, isCreate ev.1 || isDelete ev.1 = true) evs →
  (lowest evs ≤ 0)%Z ∧ (lowest evs ≤ net evs)%Z.
Proof.
  intros Hkinds. split; [destruct evs; simpl; lia|].
  pose proof (lowest_le_prefix evs Hkinds (length evs)) as H.
  rewrite firstn_all in H. exact H.
Qed.

Lemma walk_from_zero evs :
  Forall (λ ev : delivery, isCreate ev.1 || isDelete ev.1 = true) evs →
  foldl (λ t (ev : delivery), Z.max 0 (t + increment ev.1)) 0%Z evs
  = (net evs - lowest evs)%Z.
Proof.
  intros Hkinds. rewrite clamped_walk by (try assumption; lia).
  destruct (lowest_bounds evs Hkinds). simpl. lia.
Qed.

(** ** Sequences of creations and deletions: every order *)

(** C1.  For every sequence of creations and deletions on the tracked
    collections attributed to one user, delivered to an empty stats list, the
    user's entry ends with [total] at creations minus deletions minus the
    lowest balance met along the sequence, and with each category counter at
    the same expression over the events of its collection: the clamp of lines
    43-46 is applied after each event, so every deletion that finds a counter
    at 0 is absorbed for good.  [total] is creations minus deletions clamped
    at 0 exactly when the lowest balance is the lower of 0 and the final
    balance.  With three distinct collection identifiers, [total] is at most
    the sum of the category counters, and equal to it (or to the sum of the
    category balances clamped at 0) exactly when the lowest balances agree. *)
Theorem C1_total_is_balance_above_its_lowest env u evs s :
  Forall (λ ev : delivery,
            recognised ev.1 = true ∧ attribution ev.2 = Some u ∧ tracked env ev.1) evs →
  evs ≠ [] →
  statsDocument s = Document (Some []) →
  ∃ userStats low lowNotes lowForms lowYoutube,
    statsDocument (statsEvents env evs s) = Document (Some [userStats])
    ∧ name userStats = u
    ∧ lowestBalance evs low
    ∧ lowestBalance (onCollection (APPWRITE_NOTE_COLLECTION_ID env) evs) lowNotes
    ∧ lowestBalance (onCollection (APPWRITE_FORM_COLLECTION_ID env) evs) lowForms
    ∧ lowestBalance (onCollection (APPWRITE_YOUTUBE_COLLECTION_ID env) evs) lowYoutube
    ∧ total userStats = (balance evs - low)%Z
    ∧ notes userStats
      = (balance (onCollection (APPWRITE_NOTE_COLLECTION_ID env) evs) - lowNotes)%Z
    ∧ forms userStats
      = (balance (onCollection (APPWRITE_FORM_COLLECTION_ID env) evs) - lowForms)%Z
    ∧ youtube userStats
      = (balance (onCollection (APPWRITE_YOUTUBE_COLLECTION_ID env) evs) - lowYoutube)%Z
    ∧ (total userStats = Z.max 0 (balance evs) ↔ low = Z.min 0 (balance evs))
    ∧ (NoDup [ APPWRITE_NOTE_COLLECTION_ID env; APPWRITE_FORM_COLLECTION_ID env;
               APPWRITE_YOUTUBE_COLLECTION_ID env ] →
       (total userStats ≤ notes userStats + forms userStats + youtube userStats)%Z
       ∧ (total userStats = (notes userStats + forms userStats + youtube userStats)%Z
          ↔ low = (lowNotes + lowForms + lowYoutube)%Z)
       ∧ (total userStats
          = (Z.max 0 (balance (onCollection (APPWRITE_NOTE_COLLECTION_ID env) evs))
             + Z.max 0 (balance (onCollection (APPWRITE_FORM_COLLECTION_ID env) evs))
             + Z.max 0 (balance (onCollection (APPWRITE_YOUTUBE_COLLECTION_ID env) evs)))%Z
          ↔ low
            = (Z.min 0 (balance (onCollection (APPWRITE_NOTE_COLLECTION_ID env) evs))
               + Z.min 0 (balance (onCollection (APPWRITE_FORM_COLLECTION_ID env) evs))
               + Z.min 0 (balance (onCollection (APPWRITE_YOUTUBE_COLLECTION_ID env) evs)))%Z)).
Proof.
  intros Hall Hne Hdoc.
  assert (Hrec : Forall (λ ev : delivery, recognised ev.1 = true) evs).
  { eapply Forall_impl; [exact Hall|]. intros ev (H & _ & _). exact H. }
  pose proof (recognised_kinds_Forall evs Hrec) as Hkinds.
  assert (Hattr : Forall (λ ev : delivery,
            isCreate ev.1 || isDelete ev.1 = true ∧ attribution ev.2 = Some u) evs).
  { eapply Forall_impl; [exact Hall|]. intros ev (H & H' & _).
    split; [apply (recognised_increment ev.1 H) | exact H']. }
  assert (Htracked : Forall (λ ev : delivery,
            isCreate ev.1 || isDelete ev.1 = true ∧ tracked env ev.1) evs).
  { eapply Forall_impl; [exact Hall|]. intros ev (H & _ & H').
    split; [apply (recognised_increment ev.1 H) | exact H']. }
  assert (Hfresh : foldl (λ l (ev : delivery), applyEvent env ev.1 u l) [] evs
                   = foldl (λ l (ev : delivery), applyEvent env ev.1 u l)
                       [freshEntry u] evs).
  { destruct evs as [|ev evs]; [contradiction|]. simpl. rewrite applyEvent_nil.
    reflexivity. }
  assert (Hzero : nonNegative (freshEntry u)) by (repeat split; reflexivity).
  destruct (fold_applyEvent_counters env u evs (freshEntry u) eq_refl Hzero)
    as (userStats & Hfold & Hname & Ht & Hn & Hf & Hy).
  cbn [freshEntry total notes forms youtube] in Ht, Hn, Hf, Hy.
  set (evsN := onCollection (APPWRITE_NOTE_COLLECTION_ID env) evs) in *.
  set (evsF := onCollection (APPWRITE_FORM_COLLECTION_ID env) evs) in *.
  set (evsY := onCollection (APPWRITE_YOUTUBE_COLLECTION_ID env) evs) in *.
  assert (HrecN : Forall (λ ev : delivery, recognised ev.1 = true) evsN)
    by apply Forall_onCollection, Hrec.
  assert (HrecF : Forall (λ ev : delivery, recognised ev.1 = true) evsF)
    by apply Forall_onCollection, Hrec.
  assert (HrecY : Forall (λ ev : delivery, recognised ev.1 = true) evsY)
    by apply Forall_onCollection, Hrec.
  pose proof (recognised_kinds_Forall evsN HrecN) as HkN.
  pose proof (recognised_kinds_Forall evsF HrecF) as HkF.
  pose proof (recognised_kinds_Forall evsY HrecY) as HkY.
  rewrite walk_from_zero in Ht, Hn, Hf, Hy by assumption.
  destruct (lowest_bounds evs Hkinds) as [Hl0 Hl1].
  exists userStats, (lowest evs), (lowest evsN), (lowest evsF), (lowest evsY).
  rewrite !balance_net by assumption.
  split. { rewrite (statsEvents_fold env u evs s [] Hattr Hdoc), Hfresh, Hfold.
           reflexivity. }
  split; [exact Hname|].
  split; [apply lowestBalance_lowest, Hrec|].
  split; [apply lowestBalance_lowest, HrecN|].
  split; [apply lowestBalance_lowest, HrecF|].
  split; [apply lowestBalance_lowest, HrecY|].
  split; [exact Ht|]. split; [exact Hn|]. split; [exact Hf|]. split; [exact Hy|].
  split; [lia|].
  intros Hids.
  pose proof (net_by_category env evs Hids Htracked) as Hsum.
  fold evsN evsF evsY in Hsum.
  assert (Hwithin : withinCategories userStats).
  { apply (fold_applyEvent_within env u evs (freshEntry u) userStats Hids);
      try assumption; try reflexivity.
    - eapply Forall_impl; [exact Hall|]. intros ev (_ & _ & H). exact H.
    - split; [exact Hzero | unfold withinCategories; simpl; lia]. }
  unfold withinCategories in Hwithin.
  destruct (lowest_bounds evsN HkN), (lowest_bounds evsF HkF), (lowest_bounds evsY HkY).
  split; [exact Hwithin|]. split; lia.
Qed.

(** A deletion met at 0 is absorbed: after a deletion, a creation and the
    deletion of a form, the entry keeps the note and [total] is back at 0. *)
Example delete_create_delete :
  statsDocument
    (statsEvents env0
       [ ("databases.main.collections.notes.documents.d1.delete",
          payload (Some "Alice") None None);
         ("databases.main.collections.notes.documents.d2.create",
          payload (Some "Alice") None None);
         ("databases.main.collections.forms.documents.d3.delete",
          payload (Some "Alice") None None) ]
       emptyStore)
  = Document (Some [ entry "Alice" 1 0 0 0 ]).
Proof. reflexivity. Qed.

Lemma C1_witness :
  let alice := payload (Some "Alice") None None in
  let evs := [ ("databases.main.collections.notes.documents.d1.delete", alice);
               ("databases.main.collections.notes.documents.d2.create", alice);
               ("databases.main.collections.forms.documents.d3.delete", alice) ] in
  ∃ userStats low lowNotes lowForms lowYoutube,
    statsDocument (statsEvents env0 evs emptyStore) = Document (Some [userStats])
    ∧ name userStats = "Alice"
    ∧ lowestBalance evs low
    ∧ lowestBalance (onCollection "notes" evs) lowNotes
    ∧ lowestBalance (onCollection "forms" evs) lowForms
    ∧ lowestBalance (onCollection "youtube" evs) lowYoutube
    ∧ total userStats = (balance evs - low)%Z
    ∧ notes userStats = (balance (onCollection "notes" evs) - lowNotes)%Z
    ∧ forms userStats = (balance (onCollection "forms" evs) - lowForms)%Z
    ∧ youtube userStats = (balance (onCollection "youtube" evs) - lowYoutube)%Z
    ∧ (total userStats = Z.max 0 (balance evs) ↔ low = Z.min 0 (balance evs))
    ∧ (NoDup [ "notes"; "forms"; "youtube" ] →
       (total userStats ≤ notes userStats + forms userStats + youtube userStats)%Z
       ∧ (total userStats = (notes userStats + forms userStats + youtube userStats)%Z
          ↔ low = (lowNotes + lowForms + lowYoutube)%Z)
       ∧ (total userStats
          = (Z.max 0 (balance (onCollection "notes" evs))
             + Z.max 0 (balance (onCollection "forms" evs))
             + Z.max 0 (balance (onCollection "youtube" evs)))%Z
          ↔ low
            = (Z.min 0 (balance (onCollection "notes" evs))
               + Z.min 0 (balance (onCollection "forms" evs))
               + Z.min 0 (balance (onCollection "youtube" evs)))%Z)).
Proof.
  intros alice evs.
  apply (C1_total_is_balance_above_its_lowest env0 "Alice" evs emptyStore).
  - repeat (apply Forall_cons_2 || apply Forall_nil_2);
      (split; [reflexivity | split; [reflexivity|]]).
    + left. reflexivity.
    + left. reflexivity.
    + right. left. reflexivity.
  - discriminate.
  - reflexivity.
Defined.

(** C1 as stated fails, because the counters are clamped after each event
    and not at the end.  A deletion followed by a creation leaves [total] at
    1 where creations minus deletions is 0.  A creation of a note followed by
    the deletion of a form leaves [total] at 0 where the category counters,
    and the category balances clamped at 0, add up to 1.  And when two
    categories are configured with one collection, a single creation leaves
    [total] at 1 where the category counters add up to 2. *)
Lemma C1_counterexample :
  let alice := payload (Some "Alice") None None in
  let evs1 := [ ("databases.main.collections.notes.documents.d1.delete", alice);
                ("databases.main.collections.notes.documents.d2.create", alice) ] in
  let evs2 := [ ("databases.main.collections.notes.documents.d1.create", alice);
                ("databases.main.collections.forms.documents.d2.delete", alice) ] in
  let env3 := {| APPWRITE_NOTE_COLLECTION_ID := "docs";
                 APPWRITE_FORM_COLLECTION_ID := "docs";
                 APPWRITE_YOUTUBE_COLLECTION_ID := "youtube" |} in
  let evs3 := [ ("databases.main.collections.docs.documents.d1.create", alice) ] in
  (Forall (λ ev : delivery,
             recognised ev.1 = true ∧ attribution ev.2 = Some "Alice"
             ∧ tracked env0 ev.1) (evs1 ++ evs2)%list
   ∧ Forall (λ ev : delivery,
               recognised ev.1 = true ∧ attribution ev.2 = Some "Alice"
               ∧ tracked env3 ev.1) evs3)
  ∧ (∃ userStats,
       statsDocument (statsEvents env0 evs1 emptyStore) = Document (Some [userStats])
       ∧ name userStats = "Alice"
       ∧ total userStats = 1%Z
       ∧ total userStats ≠ Z.max 0 (creations evs1 - deletions evs1))
  ∧ (∃ userStats,
       statsDocument (statsEvents env0 evs2 emptyStore) = Document (Some [userStats])
       ∧ name userStats = "Alice"
       ∧ total userStats = 0%Z
       ∧ total userStats ≠ (notes userStats + forms userStats + youtube userStats)%Z
       ∧ total userStats
         ≠ (Z.max 0 (balance (onCollection "notes" evs2))
            + Z.max 0 (balance (onCollection "forms" evs2))
            + Z.max 0 (balance (onCollection "youtube" evs2)))%Z)
  ∧ (∃ userStats,
       statsDocument (statsEvents env3 evs3 emptyStore) = Document (Some [userStats])
       ∧ name userStats = "Alice"
       ∧ total userStats = 1%Z
       ∧ total userStats ≠ (notes userStats + forms userStats + youtube userStats)%Z
       ∧ total userStats
         ≠ (Z.max 0 (balance (onCollection "docs" evs3))
            + Z.max 0 (balance (onCollection "docs" evs3))
            + Z.max 0 (balance (onCollection "youtube" evs3)))%Z).
Proof.
  intros alice evs1 evs2 env3 evs3. split; [|split; [|split]].
  - split.
    + repeat (apply Forall_cons_2 || apply Forall_nil_2);
        (split; [reflexivity | split; [reflexivity|]]).
      * left. reflexivity.
      * left. reflexivity.
      * left. reflexivity.
      * right. left. reflexivity.
    + repeat (apply Forall_cons_2 || apply Forall_nil_2).
      split; [reflexivity | split; [reflexivity|]]. left. reflexivity.
  - exists (entry "Alice" 1 0 0 1). repeat split. vm_compute. discriminate.
  - exists (entry "Alice" 1 0 0 0). repeat split; vm_compute; discriminate.
  - exists (entry "Alice" 1 1 0 1). repeat split; vm_compute; discriminate.
Qed.

(** ** Events on a collection that is not tracked *)

Lemma mutateStats_found env event u statsData (i : nat) userStats :
  statsData !! i = Some userStats →
  name userStats = u →
  (∀ (j : nat) other, (j < i)%nat → statsData !! j = Some other → name other ≠ u) →
  mutateStats env event u statsData
  = <[i := clampCounts (addIncrement env event userStats)]> statsData.
Proof.
  intros Hi Hname Hfirst. unfold mutateStats, locate.
  destruct (list_find (λ u0, name u0 = u) statsData) as [[i' x]|] eqn:E.
  - apply list_find_Some in E as (Hi' & Hx & Hmin).
    assert (i' = i) as ->.
    { destruct (Nat.lt_trichotomy i' i) as [Hlt|[Heq|Hgt]]; [|exact Heq|].
      - exfalso. exact (Hfirst i' x Hlt Hi' Hx).
      - exfalso. exact (Hmin i userStats Hi Hgt Hname). }
    exact (list_alter_lookup
             (λ userStats, clampCounts (addIncrement env event userStats))
             statsData i userStats Hi).
  - apply list_find_None in E. rewrite Forall_forall in E.
    exfalso. apply (E userStats); [|exact Hname].
    eapply list_elem_of_lookup_2, Hi.
Qed.

Lemma mutateStats_absent env event u statsData :
  (∀ other, other ∈ statsData → name other ≠ u) →
  mutateStats env event u statsData
  = (statsData ++ [clampCounts (addIncrement env event (freshEntry u))])%list.
Proof.
  intros Hnone. unfold mutateStats, locate.
  destruct (list_find (λ u0, name u0 = u) statsData) as [[i x]|] eqn:E.
  - apply list_find_Some in E as (Hi & Hx & _).
    exfalso. apply (Hnone x); [|exact Hx]. eapply list_elem_of_lookup_2, Hi.
  - rewrite alter_app_r_alt by lia. rewrite Nat.sub_diag. reflexivity.
Qed.

Lemma book_untracked env event userStats :
  recognised event = true →
  ¬ tracked env event →
  clampCounts (addIncrement env event userStats)
  = bookedOnTotal (if isCreation event then 1 else -1)%Z userStats.
Proof.
  intros Hrec Hun. rewrite (addIncrement_untracked env event userStats Hun).
  destruct (recognised_increment event Hrec) as [_ ->]. reflexivity.
Qed.

(** C5.  The operation is looked for anywhere in the event name (lines 15
    and 35).  The deletion of a document of the collection [created_items],
    which is not tracked, reads [.create] in [.created_items]: the entry of
    the user goes from total 1 to total 2 instead of total 0, and that is
    what is written back. *)
Theorem C5_deletion_on_created_items_adds_one :
  let event := "databases.main.collections.created_items.documents.d1.delete" in
  let s := statsRef.(writeSlot) (Document (Some [ entry "Alice" 1 0 0 1 ])) emptyStore in
  isDeletion event = true
  ∧ isCreation event = false
  ∧ collectionId event = Some "created_items"
  ∧ ¬ tracked env0 event
  ∧ attribution (payload (Some "Alice") None None) = Some "Alice"
  ∧ settle (updateTeacherStats env0 event (payload (Some "Alice") None None)) s
    = (fulfilled,
       statsRef.(writeSlot) (Document (Some [ entry "Alice" 1 0 0 2 ])) emptyStore,
       [GetDocument STATS_DOCUMENT_ID; UpdateDocument STATS_DOCUMENT_ID]).
Proof.
  repeat split; try reflexivity.
  intros [H|[H|H]]; discriminate H.
Qed.

(** X23.  A creation or deletion attributed to a user, on a collection that
    is none of the three tracked ones, is read and written back: the first
    stored entry of that name (a fresh one at the end when there is none)
    has 1 added to or taken from [total], clamped at 0, its category
    counters being left as they are (clamped at 0 too), every other entry is
    kept, and the list is sorted by descending [total]. *)
Theorem X23_untracked_collection_moves_total_only env event eventData s statsData u :
  recognised event = true →
  attribution eventData = Some u →
  ¬ tracked env event →
  statsDocument s = Document (Some statsData) →
  ∃ statsData',
    settle (updateTeacherStats env event eventData) s
    = (fulfilled, statsRef.(writeSlot) (Document (Some statsData')) s,
       [GetDocument STATS_DOCUMENT_ID; UpdateDocument STATS_DOCUMENT_ID])
    ∧ StronglySorted totalGe statsData'
    ∧ (∀ (i : nat) userStats,
         statsData !! i = Some userStats →
         name userStats = u →
         (∀ (j : nat) other,
            (j < i)%nat → statsData !! j = Some other → name other ≠ u) →
         statsData'
         = sort byTotalDesc
             (<[i := bookedOnTotal (if isCreation event then 1 else -1)%Z userStats]>
                statsData))
    ∧ ((∀ other, other ∈ statsData → name other ≠ u) →
       statsData'
       = sort byTotalDesc
           (statsData
            ++ [bookedOnTotal (if isCreation event then 1 else -1)%Z (freshEntry u)])%list).
Proof.
  intros Hrec Hattr Hun Hdoc.
  exists (applyEvent env event u statsData). split; [|split; [|split]].
  - rewrite updateTeacherStats_settle, Hattr, Hdoc.
    destruct (recognised_increment event Hrec) as [Hkind _].
    assert (negb (includes event ".create") && negb (includes event ".delete") = false)
      as ->; [|reflexivity].
    unfold isCreate, isDelete in Hkind.
    destruct (includes event ".create"), (includes event ".delete");
      simpl in *; congruence.
  - apply sort_byTotalDesc_sorted.
  - intros i userStats Hi Hname Hfirst. unfold applyEvent.
    rewrite (mutateStats_found env event u statsData i userStats Hi Hname Hfirst).
    rewrite book_untracked by assumption. reflexivity.
  - intros Hnone. unfold applyEvent.
    rewrite (mutateStats_absent env event u statsData Hnone).
    rewrite book_untracked by assumption. reflexivity.
Qed.

Lemma X23_witness :
  let event := "databases.main.collections.links.documents.d7.delete" in
  let statsData := [ entry "Bob" 0 1 0 4; entry "Alice" 2 0 0 3 ] in
  let s := statsRef.(writeSlot) (Document (Some statsData)) emptyStore in
  ∃ statsData',
    settle (updateTeacherStats env0 event (payload (Some "Alice") None None)) s
    = (fulfilled, statsRef.(writeSlot) (Document (Some statsData')) s,
       [GetDocument STATS_DOCUMENT_ID; UpdateDocument STATS_DOCUMENT_ID])
    ∧ StronglySorted totalGe statsData'
    ∧ (∀ (i : nat) userStats,
         statsData !! i = Some userStats →
         name userStats = "Alice" →
         (∀ (j : nat) other,
            (j < i)%nat → statsData !! j = Some other → name other ≠ "Alice") →
         statsData'
         = sort byTotalDesc
             (<[i := bookedOnTotal (if isCreation event then 1 else -1)%Z userStats]>
                statsData))
    ∧ ((∀ other, other ∈ statsData → name other ≠ "Alice") →
       statsData'
       = sort byTotalDesc
           (statsData
            ++ [bookedOnTotal (if isCreation event then 1 else -1)%Z
                  (freshEntry "Alice")])%list).
Proof.
  intros event statsData s.
  apply (X23_untracked_collection_moves_total_only env0 event
           (payload (Some "Alice") None None) s statsData "Alice").
  - reflexivity.
  - reflexivity.
  - intros [H|[H|H]]; discriminate H.
  - reflexivity.
Defined.

Example untracked_delete_among_others :
  settle (updateTeacherStats env0 "databases.main.collections.links.documents.d7.delete"
            (payload (Some "Alice") None None))
    (statsRef.(writeSlot)
       (Document (Some [ entry "Bob" 0 1 0 4; entry "Alice" 2 0 0 3 ])) emptyStore)
  = (fulfilled,
     statsRef.(writeSlot)
       (Document (Some [ entry "Bob" 0 1 0 4; entry "Alice" 2 0 0 2 ])) emptyStore,
     [GetDocument STATS_DOCUMENT_ID; UpdateDocument STATS_DOCUMENT_ID]).
Proof. reflexivity. Qed.

(** Code units, not code points: U+1F600 is the surrogate pair D83D DE00 and
    sorts before U+FB01. *)
Example astral_sorts_before_ligature :
  sort defaultCompare [ "ﬁ"; "😀"; "zeta" ] = [ "zeta"; "😀"; "ﬁ" ].
Proof. reflexivity. Qed.
